(** * Auto-Insight: the real-time job-progress pipeline

    Two parts of the pipeline are covered.

    - [Api]: the reconnecting WebSocket client [RealTimeService] of
      [frontend/src/services/api.ts], embedded as an event-loop machine:
      one step per macrotask (a caller's method call, a socket event, a
      timer firing), each handler body translated statement by statement.
    - [JobRunner]: the stage loop that produces the progress events.  The
      backend is not part of the sources at hand, so this part is modelled
      from the specification. *)

From Stdlib Require Import ZArith Lia Sorted Ascii.
From stdpp Require Import base option list strings pretty gmap.

Open Scope string_scope.
Open Scope list_scope.
Open Scope nat_scope.

(* ===================================================================== *)
(** ** The client: [RealTimeService] *)
(* ===================================================================== *)

Module Api.

(** [WebSocket.readyState]. *)
Inductive ReadyState := CONNECTING | OPEN | CLOSING | CLOSED.

(** How a call of a caller-supplied function ends. *)
Inductive Completion := Normal | Throws.

(** What the browser reports with a close event.  The [onclose] handler of
    the client takes no argument, so none of it is ever read. *)
Record CloseEvent := { wasClean : bool; code : nat }.

(** State of a promise made by [connect], and whether its rejection is
    swallowed by the [.catch(() => {})] of [attemptReconnect]. *)
Inductive PromiseState := Pending | Fulfilled | Rejected.
Record Promise := { pstate : PromiseState; caught : bool }.

(** The instance fields of [class RealTimeService]. *)
Record RealTimeService := {
  jobId : string;
  ws : option nat;                  (* WebSocket | null, a reference into the socket store *)
  reconnectAttempts : nat;
  maxReconnectAttempts : nat;
  reconnectInterval : nat
}.

(** [new RealTimeService(jobId)]. *)
Definition constructor (job : string) : RealTimeService :=
  {| jobId := job; ws := None; reconnectAttempts := 0;
     maxReconnectAttempts := 5; reconnectInterval := 3000 |}.

Section Model.

(** [Data] is the value [JSON.parse] returns ([any]); [Caller] is whatever
    state the caller's closures capture. *)
Context {Data Caller : Type}.

(** [JSON.parse]: [None] when it throws a SyntaxError. *)
Variable JSON_parse : string -> option Data.

(** Whether [new WebSocket(url)] throws for this URL (a SyntaxError of the
    browser's URL parser). *)
Variable WebSocket_throws : string -> bool.

(** The two arguments of [connect]: [onMessage] and the optional [onError]. *)
Record Callbacks := {
  onMessage : Data -> Caller -> Caller * Completion;
  onError : option (Caller -> Caller * Completion)
}.

(** A socket made by [connect], with what its four handlers close over:
    the callbacks and the [resolve]/[reject] pair of the promise. *)
Record WebSocket := {
  url : string;
  readyState : ReadyState;
  handlers : Callbacks;
  executor : nat
}.

(** A [setTimeout] entry: the delay asked for and the callbacks captured by
    the arrow function; [pending] until it has run. *)
Record Timer := { delay : nat; captured : Callbacks; pending : bool }.

Record World := {
  this : RealTimeService;
  sockets : list WebSocket;
  promises : list Promise;
  timers : list Timer;
  caller : Caller
}.

(** Everything a step does that can be seen from outside the instance. *)
Inductive Effect :=
| ConsoleLog (line : string)
| ConsoleError (line : string)
| NewWebSocket (u : string)
| WsClose (s : nat)
| CallOnMessage (s : nat) (d : Data)
| CallOnError (s : nat)
| Resolve (p : nat)
| Reject (p : nat)
| SetTimeout (t : nat) (ms : nat)
| Uncaught.

(** What the event loop can run next. *)
Inductive Input :=
| CallConnect (cb : Callbacks)
| CallDisconnect
| EvOpen (s : nat)
| EvMessage (s : nat) (payload : string)
| EvError (s : nat)
| EvClose (s : nat) (ev : CloseEvent)
| TimerFires (t : nat).

(** *** Field updates *)

Definition set_this (r : RealTimeService) (w : World) : World :=
  {| this := r; sockets := sockets w; promises := promises w;
     timers := timers w; caller := caller w |}.

Definition set_sockets (l : list WebSocket) (w : World) : World :=
  {| this := this w; sockets := l; promises := promises w;
     timers := timers w; caller := caller w |}.

Definition set_promises (l : list Promise) (w : World) : World :=
  {| this := this w; sockets := sockets w; promises := l;
     timers := timers w; caller := caller w |}.

Definition set_timers (l : list Timer) (w : World) : World :=
  {| this := this w; sockets := sockets w; promises := promises w;
     timers := l; caller := caller w |}.

Definition set_caller (c : Caller) (w : World) : World :=
  {| this := this w; sockets := sockets w; promises := promises w;
     timers := timers w; caller := c |}.

Definition set_ws (o : option nat) (r : RealTimeService) : RealTimeService :=
  {| jobId := jobId r; ws := o; reconnectAttempts := reconnectAttempts r;
     maxReconnectAttempts := maxReconnectAttempts r;
     reconnectInterval := reconnectInterval r |}.

Definition set_reconnectAttempts (n : nat) (r : RealTimeService) : RealTimeService :=
  {| jobId := jobId r; ws := ws r; reconnectAttempts := n;
     maxReconnectAttempts := maxReconnectAttempts r;
     reconnectInterval := reconnectInterval r |}.

Definition set_readyState (st : ReadyState) (k : WebSocket) : WebSocket :=
  {| url := url k; readyState := st; handlers := handlers k;
     executor := executor k |}.

(** *** Browser primitives *)

(** [resolve()] and [reject(error)]: only the first call on a promise has
    an effect. *)
Definition settle (p : nat) (st : PromiseState) (w : World) : World :=
  match promises w !! p with
  | Some {| pstate := Pending; caught := c |} =>
      set_promises (<[p := {| pstate := st; caught := c |}]> (promises w)) w
  | _ => w
  end.

(** [WebSocket.prototype.close()] without arguments: starts closing a
    socket that is connecting or open, does nothing otherwise, never
    throws. *)
Definition WebSocket_close (k : WebSocket) : WebSocket :=
  match readyState k with
  | CONNECTING | OPEN => set_readyState CLOSING k
  | CLOSING | CLOSED => k
  end.

(** *** The methods of the class *)

(** [connect(onMessage, onError)].  The promise executor runs at once: it
    builds the URL, makes the socket, stores it in [this.ws] and installs
    the four handlers; when the constructor throws, the [catch] rejects.
    [swallow] tells whether the call is the one inside [attemptReconnect],
    whose rejection is caught and dropped. *)
Definition connect (cb : Callbacks) (swallow : bool) (w : World) : World * list Effect :=
  let p := length (promises w) in
  let wsUrl := "ws://localhost:8000/ws/job/" +:+ jobId (this w) in
  if WebSocket_throws wsUrl then
    (set_promises (promises w ++ [{| pstate := Rejected; caught := swallow |}]) w,
     [NewWebSocket wsUrl; Reject p])
  else
    let s := length (sockets w) in
    let k := {| url := wsUrl; readyState := CONNECTING; handlers := cb; executor := p |} in
    (set_this (set_ws (Some s) (this w))
       (set_sockets (sockets w ++ [k])
          (set_promises (promises w ++ [{| pstate := Pending; caught := swallow |}]) w)),
     [NewWebSocket wsUrl]).

(** [attemptReconnect(onMessage, onError)]. *)
Definition attemptReconnect (cb : Callbacks) (w : World) : World * list Effect :=
  if reconnectAttempts (this w) <? maxReconnectAttempts (this w) then
    let n := S (reconnectAttempts (this w)) in
    let t := length (timers w) in
    (set_timers (timers w ++ [{| delay := reconnectInterval (this w);
                                 captured := cb; pending := true |}])
       (set_this (set_reconnectAttempts n (this w)) w),
     [ConsoleLog ("Attempting to reconnect... (" +:+ pretty n +:+ "/"
                    +:+ pretty (maxReconnectAttempts (this w)) +:+ ")");
      SetTimeout t (reconnectInterval (this w))])
  else (w, []).

(** [disconnect()]. *)
Definition disconnect (w : World) : World * list Effect :=
  match ws (this w) with
  | Some s =>
      (set_this (set_ws None (this w))
         (set_sockets (alter WebSocket_close s (sockets w)) w),
       [WsClose s])
  | None => (w, [])
  end.

(** [isConnected()]: [this.ws?.readyState === WebSocket.OPEN]. *)
Definition isConnected (w : World) : bool :=
  match ws (this w) with
  | Some s =>
      match sockets w !! s with
      | Some k => match readyState k with OPEN => true | _ => false end
      | None => false
      end
  | None => false
  end.

(** *** The handlers [connect] installs on socket [s] *)

(** [ws.onopen]. *)
Definition onopen (k : WebSocket) (w : World) : World * list Effect :=
  (settle (executor k) Fulfilled
     (set_this (set_reconnectAttempts 0 (this w)) w),
   [ConsoleLog ("WebSocket connected for job " +:+ jobId (this w));
    Resolve (executor k)]).

(** [ws.onmessage]: parse and call the handler inside one [try]; whatever
    is thrown in there is logged by the [catch]. *)
Definition onmessage (s : nat) (k : WebSocket) (payload : string) (w : World)
  : World * list Effect :=
  match JSON_parse payload with
  | None => (w, [ConsoleError "Failed to parse WebSocket message:"])
  | Some d =>
      match onMessage (handlers k) d (caller w) with
      | (c, Normal) => (set_caller c w, [CallOnMessage s d])
      | (c, Throws) =>
          (set_caller c w,
           [CallOnMessage s d; ConsoleError "Failed to parse WebSocket message:"])
      end
  end.

(** [ws.onclose]. *)
Definition onclose (k : WebSocket) (w : World) : World * list Effect :=
  let '(w', e) := attemptReconnect (handlers k) w in
  (w', ConsoleLog ("WebSocket closed for job " +:+ jobId (this w)) :: e).

(** [ws.onerror].  When [onError] itself throws, [reject] is not reached
    and the exception leaves the handler. *)
Definition onerror (s : nat) (k : WebSocket) (w : World) : World * list Effect :=
  match onError (handlers k) with
  | Some f =>
      match f (caller w) with
      | (c, Normal) =>
          (settle (executor k) Rejected (set_caller c w),
           [ConsoleError "WebSocket error:"; CallOnError s; Reject (executor k)])
      | (c, Throws) =>
          (set_caller c w, [ConsoleError "WebSocket error:"; CallOnError s; Uncaught])
      end
  | None =>
      (settle (executor k) Rejected w,
       [ConsoleError "WebSocket error:"; Reject (executor k)])
  end.

(** The arrow function given to [setTimeout]. *)
Definition timeout_callback (cb : Callbacks) (w : World) : World * list Effect :=
  connect cb true w.

(** *** The event loop

    The browser delivers [open] only to a connecting socket, [message] only
    to an open one, [error] and [close] only to a socket whose close event
    has not been delivered yet, and runs a timer once.  [None] is an input
    the browser cannot produce in this state.  The ready state is set by
    the browser before the handler runs. *)
Definition step (w : World) (i : Input) : option (World * list Effect) :=
  match i with
  | CallConnect cb => Some (connect cb false w)
  | CallDisconnect => Some (disconnect w)
  | EvOpen s =>
      match sockets w !! s with
      | Some k =>
          match readyState k with
          | CONNECTING =>
              Some (onopen k (set_sockets (<[s := set_readyState OPEN k]> (sockets w)) w))
          | _ => None
          end
      | None => None
      end
  | EvMessage s payload =>
      match sockets w !! s with
      | Some k =>
          match readyState k with
          | OPEN => Some (onmessage s k payload w)
          | _ => None
          end
      | None => None
      end
  | EvError s =>
      match sockets w !! s with
      | Some k =>
          match readyState k with
          | CLOSED => None
          | _ => Some (onerror s k w)
          end
      | None => None
      end
  | EvClose s _ =>
      match sockets w !! s with
      | Some k =>
          match readyState k with
          | CLOSED => None
          | _ =>
              Some (onclose k (set_sockets (<[s := set_readyState CLOSED k]> (sockets w)) w))
          end
      | None => None
      end
  | TimerFires t =>
      match timers w !! t with
      | Some tm =>
          if pending tm then
            Some (timeout_callback (captured tm)
                    (set_timers (<[t := {| delay := delay tm; captured := captured tm;
                                           pending := false |}]> (timers w)) w))
          else None
      | None => None
      end
  end.

(** A run of the event loop, with the effects in the order they happen. *)
Fixpoint run (w : World) (ins : list Input) : option (World * list Effect) :=
  match ins with
  | [] => Some (w, [])
  | i :: rest =>
      match step w i with
      | Some (w1, e1) =>
          match run w1 rest with
          | Some (w2, e2) => Some (w2, e1 ++ e2)
          | None => None
          end
      | None => None
      end
  end.

(** The world right after [new RealTimeService(job)]. *)
Definition fresh (job : string) (c : Caller) : World :=
  {| this := constructor job; sockets := []; promises := []; timers := []; caller := c |}.

(** The worlds the event loop can reach from a new instance. *)
Inductive reachable : World -> Prop :=
| reachable_fresh job c : reachable (fresh job c)
| reachable_step w i w' e : reachable w -> step w i = Some (w', e) -> reachable w'.

(** *** What is observed of a run *)

(** The handler invocations among the effects: socket and parsed value. *)
Definition onMessage_calls (e : list Effect) : list (nat * Data) :=
  omap (fun x => match x with CallOnMessage s d => Some (s, d) | _ => None end) e.

(** The well-formed messages among the inputs: socket and parsed value. *)
Definition wellformed (ins : list Input) : list (nat * Data) :=
  omap (fun i => match i with
                 | EvMessage s payload => pair s <$> JSON_parse payload
                 | _ => None
                 end) ins.

(** The delays of the [setTimeout] calls among the effects. *)
Definition scheduled (e : list Effect) : list nat :=
  omap (fun x => match x with SetTimeout _ ms => Some ms | _ => None end) e.

(** No open event among the inputs: the counter is never reset. *)
Definition no_open (ins : list Input) : bool :=
  forallb (fun i => match i with EvOpen _ => false | _ => true end) ins.

(** No call of [connect] by the caller among the inputs. *)
Definition no_connect_call (ins : list Input) : bool :=
  forallb (fun i => match i with CallConnect _ => false | _ => true end) ins.

(** How many timers the inputs fire, and how many are waiting. *)
Definition fired (ins : list Input) : nat :=
  length (List.filter (fun i => match i with TimerFires _ => true | _ => false end) ins).

Definition waiting (w : World) : nat :=
  length (List.filter pending (timers w)).

(** How often the caller calls [connect], and how often the constructor
    is called. *)
Definition connect_calls (ins : list Input) : nat :=
  length (List.filter (fun i => match i with CallConnect _ => true | _ => false end) ins).

Definition connection_attempts (e : list Effect) : nat :=
  length (List.filter (fun x => match x with NewWebSocket _ => true | _ => false end) e).

(** A connection attempt: [new WebSocket] is called. *)
Definition attempts_connection (e : list Effect) : bool :=
  existsb (fun x => match x with NewWebSocket _ => true | _ => false end) e.

(** An error signal the caller can see in a step from [w] to [w']: a call
    of its [onError], or the rejection of a promise nobody catches. *)
Definition signals_error (w w' : World) (x : Effect) : bool :=
  match x with
  | CallOnError _ => true
  | Reject p =>
      match promises w' !! p, promises w !! p with
      | Some {| pstate := Rejected; caught := false |}, Some {| pstate := Rejected |} => false
      | Some {| pstate := Rejected; caught := false |}, _ => true
      | _, _ => false
      end
  | _ => false
  end.

Definition error_signal (w : World) (e : list Effect) (w' : World) : bool :=
  existsb (signals_error w w') e.

(** The attempts are exhausted without success: a socket closes while the
    counter has reached the maximum. *)
Definition exhausted (w : World) (i : Input) : bool :=
  match i with
  | EvClose _ _ => negb (reconnectAttempts (this w) <? maxReconnectAttempts (this w))
  | _ => false
  end.

(** What the specification asks of [disconnect()], tested against the code
    below: once it has returned in a state with a waiting timer or an open
    connection, the instance makes no connection attempt of its own any
    more. *)
Definition disconnect_stops_reconnecting : Prop :=
  forall w ins w' e,
    reachable w ->
    (0 < waiting w \/ isConnected w = true) ->
    no_connect_call ins = true ->
    run (disconnect w).1 ins = Some (w', e) ->
    attempts_connection e = false.

(** Whether some step of a run delivers an error signal to the caller. *)
Fixpoint signalled (w : World) (ins : list Input) : bool :=
  match ins with
  | [] => false
  | i :: rest =>
      match step w i with
      | Some (w1, e1) => error_signal w e1 w1 || signalled w1 rest
      | None => false
      end
  end.

(** The attempt that is failing is the last one allowed: a socket reports
    an error or closes while the counter has reached the maximum, so no
    retry follows. *)
Definition last_attempt_fails (w : World) (i : Input) : bool :=
  match i with
  | EvError _ | EvClose _ _ =>
      negb (reconnectAttempts (this w) <? maxReconnectAttempts (this w))
  | _ => false
  end.

(** The steps in which the code delivers an error signal, read off
    [onerror] and the [catch] of [connect]: an error event of a socket
    whose callbacks include [onError]; an error event of a socket without
    [onError] whose promise is still pending and was returned to the
    caller; a call of [connect] by the caller for which the constructor
    throws.  The counter is not consulted. *)
Definition signal_source (w : World) (i : Input) : bool :=
  match i with
  | EvError s =>
      match sockets w !! s with
      | Some k =>
          match onError (handlers k) with
          | Some _ => true
          | None =>
              match promises w !! executor k with
              | Some {| pstate := Pending; caught := false |} => true
              | _ => false
              end
          end
      | None => false
      end
  | CallConnect _ => WebSocket_throws ("ws://localhost:8000/ws/job/" +:+ jobId (this w))
  | _ => false
  end.

(** What the specification asks when the attempts run out, in two halves
    that are tested against the code below.  When: a run from a new
    instance that reaches the close event which finds the attempts
    exhausted has delivered an error signal to the caller, in that step or
    in any step before it. *)
Definition error_when_exhausted : Prop :=
  forall job c ins s ev w e w' e',
    run (fresh job c) ins = Some (w, e) ->
    step w (EvClose s ev) = Some (w', e') ->
    exhausted w (EvClose s ev) = true ->
    signalled (fresh job c) (ins ++ [EvClose s ev]) = true.

(** Exactly then: an error signal is delivered only while the last attempt
    allowed is failing. *)
Definition error_only_when_exhausted : Prop :=
  forall w i w' e,
    reachable w ->
    step w i = Some (w', e) ->
    error_signal w e w' = true ->
    last_attempt_fails w i = true.

End Model.

Arguments Callbacks : clear implicits.
Arguments WebSocket : clear implicits.
Arguments Timer : clear implicits.
Arguments World : clear implicits.
Arguments Effect : clear implicits.
Arguments Input : clear implicits.

(** *** A concrete setting for the scenarios

    Payloads count as JSON when they start with an opening brace, the
    parsed value is the text itself, the constructor never throws, and the
    caller keeps two counters: messages handled and errors reported. *)
Module Demo.

Definition parse (payload : string) : option string :=
  if String.prefix "{" payload then Some payload else None.

Definition never_throws (_ : string) : bool := false.

Definition view : Callbacks string (nat * nat) :=
  {| onMessage := fun _ c => ((S c.1, c.2), Normal);
     onError := Some (fun c => ((c.1, S c.2), Normal)) |}.

(** A handler that throws on every message. *)
Definition faulty : Callbacks string (nat * nat) :=
  {| onMessage := fun _ c => (c, Throws); onError := None |}.

Definition start : World string (nat * nat) := fresh "J1" (0, 0).

Definition dropped : CloseEvent := {| wasClean := false; code := 1006 |}.
Definition normal : CloseEvent := {| wasClean := true; code := 1000 |}.

(** The world a sequence of inputs leads to from [start]. *)
Definition after (ins : list (Input string (nat * nat))) : World string (nat * nat) :=
  match run parse never_throws start ins with
  | Some (w, _) => w
  | None => start
  end.

(** Connected, then the connection drops: one reconnect timer is waiting. *)
Definition until_backoff : list (Input string (nat * nat)) :=
  [CallConnect view; EvOpen 0; EvClose 0 dropped].

(** Connected, the job's terminal event received. *)
Definition until_completed : list (Input string (nat * nat)) :=
  [CallConnect view; EvOpen 0; EvMessage 0 "{status:running,progress:95}";
   EvMessage 0 "{status:completed,progress:100}"].

(** Connected. *)
Definition until_open : list (Input string (nat * nat)) :=
  [CallConnect view; EvOpen 0].

(** The connection drops and five reconnects fail one after the other;
    the close event of the fifth has not arrived yet. *)
Definition failures : list (Input string (nat * nat)) :=
  [EvClose 0 dropped;
   TimerFires 0; EvError 1; EvClose 1 dropped;
   TimerFires 1; EvError 2; EvClose 2 dropped;
   TimerFires 2; EvError 3; EvClose 3 dropped;
   TimerFires 3; EvError 4; EvClose 4 dropped;
   TimerFires 4; EvError 5].

Definition until_last_failure : list (Input string (nat * nat)) :=
  until_open ++ failures.


End Demo.

(** *** Further observations on the client *)

Section More.

Context {Data Caller : Type}.

(** The endpoint [connect] builds for a job: the template literal
    [ws://localhost:8000/ws/job/${this.jobId}]. *)
Definition job_url (job : string) : string := "ws://localhost:8000/ws/job/" +:+ job.

(** The caller's state after its handler has been applied to a sequence
    of parsed values, one after the other, whether a call throws or not. *)
Definition handled (cb : Callbacks Data Caller) (ds : list Data) (c : Caller) : Caller :=
  fold_left (fun c d => (onMessage cb d c).1) ds c.

(** The URLs the constructor was called with. *)
Definition urls (e : list (Effect Data)) : list string :=
  omap (fun x => match x with NewWebSocket u => Some u | _ => None end) e.

(** The callbacks the caller passed to [connect]. *)
Definition connect_args (ins : list (Input Data Caller)) : list (Callbacks Data Caller) :=
  omap (fun i => match i with CallConnect cb => Some cb | _ => None end) ins.

(** How many socket error events the inputs hold. *)
Definition error_events (ins : list (Input Data Caller)) : nat :=
  length (List.filter (fun i => match i with EvError _ => true | _ => false end) ins).

(** The order in which a socket goes through its ready states. *)
Definition rank (st : ReadyState) : nat :=
  match st with CONNECTING => 0 | OPEN => 1 | CLOSING => 2 | CLOSED => 3 end.

(** What holds of the references kept in a world: [ws], when set, is the
    socket made last; every socket was opened on the job's endpoint and
    its handlers settle a promise that exists. *)
Definition consistent (w : World Data Caller) : Prop :=
  match ws (this w) with
  | Some s => S s = length (sockets w)
  | None => True
  end
  /\ Forall (fun k => url k = job_url (jobId (this w))
                      /\ executor k < length (promises w)) (sockets w).

(** Some socket can still close while the counter is below the maximum:
    the state from which a reconnect will be scheduled. *)
Definition can_reconnect (w : World Data Caller) : Prop :=
  reconnectAttempts (this w) < maxReconnectAttempts (this w)
  /\ exists s k, sockets w !! s = Some k /\ readyState k <> CLOSED.

End More.

(** *** More settings for the scenarios *)
Module Cases.

(** A browser whose constructor rejects every URL. *)
Definition always_throws (_ : string) : bool := true.

(** Callbacks whose [onError] throws. *)
Definition angry : Callbacks string (nat * nat) :=
  {| onMessage := fun _ c => ((S c.1, c.2), Normal);
     onError := Some (fun c => (c, Throws)) |}.

(** Callbacks without [onError], which [connect] declares optional. *)
Definition quiet : Callbacks string (nat * nat) :=
  {| onMessage := fun _ c => ((S c.1, c.2), Normal); onError := None |}.

(** Connected without [onError]; then the connection drops and five
    reconnects fail one after the other, up to the error event of the
    fifth. *)
Definition quiet_until_last_failure : list (Input string (nat * nat)) :=
  [CallConnect quiet; EvOpen 0] ++ Demo.failures.

(** The world after [connect(angry)] on a new instance. *)
Definition after_angry : World string (nat * nat) :=
  (connect Demo.never_throws angry false Demo.start).1.

End Cases.

End Api.

(* ===================================================================== *)
(** ** The job runner *)
(* ===================================================================== *)

Module JobRunner.

(** Modelled from the spec: the closed status enum of a Job (section 3);
    the backend that declares it is not among the sources. *)
Inductive Status := queued | running | completed | failed.

(** Modelled from the spec: what a stage's opaque work callable returns,
    success or a failure with its error description (section 6). *)
Inductive Outcome := Success | Failure (error : string).

(** Modelled from the spec: one entry of a Stage Plan, a name, a weight
    and the work callable supplied for the stage (sections 3 and 4.1). *)
Record Stage := { name : string; weight : Z; work : unit -> Outcome }.

(** Modelled from the spec: the Progress Event of section 3, with the
    fields of the wire message of section 6. *)
Record ProgressEvent := {
  job_id : string;
  status : Status;
  progress : Z;
  message : string
}.

(** Modelled from the spec: the terminal states, [completed] and [failed]. *)
Definition is_terminal (s : Status) : bool :=
  match s with
  | completed | failed => true
  | queued | running => false
  end.

(** Modelled from the spec: the stage loop of the Job Runner (section 4.1),
    which is missing from the sources.  For each stage in plan order the
    work is invoked.  On failure one [failed] event carries the progress
    reached so far and the error, and the loop stops.  On success the
    cumulative weight is published with [running] and the stage's name;
    the success of the final stage publishes the one [completed] event with
    progress 100 (scenario 1 of section 8 counts eleven events for eleven
    stages, the last one being the completed event). *)
Fixpoint run_stages (job : string) (reached : Z) (plan : list Stage)
  : list ProgressEvent :=
  match plan with
  | [] => []
  | st :: rest =>
      match work st tt with
      | Failure err =>
          [{| job_id := job; status := failed; progress := reached; message := err |}]
      | Success =>
          let p := (reached + weight st)%Z in
          match rest with
          | [] =>
              [{| job_id := job; status := completed; progress := 100; message := name st |}]
          | _ :: _ =>
              {| job_id := job; status := running; progress := p; message := name st |}
                :: run_stages job p rest
          end
      end
  end.

(** Modelled from the spec: a job starts with nothing reached. *)
Definition run_job (job : string) (plan : list Stage) : list ProgressEvent :=
  run_stages job 0 plan.

(** Modelled from the spec: the sum of the weights of a plan. *)
Definition total_weight (plan : list Stage) : Z :=
  foldr (fun st acc => (weight st + acc)%Z) 0%Z plan.

(** Modelled from the spec: the Stage Plan invariant of section 3, weights
    are non-negative and sum to exactly 100. *)
Definition valid_plan (plan : list Stage) : Prop :=
  Forall (fun st => (0 <= weight st)%Z) plan /\ total_weight plan = 100%Z.

(** Modelled from the spec: the cumulative weight after each stage, which
    section 3 defines as the progress reported when the stage completes. *)
Fixpoint cumulative (reached : Z) (plan : list Stage) : list Z :=
  match plan with
  | [] => []
  | st :: rest => (reached + weight st)%Z :: cumulative (reached + weight st) rest
  end.

(** The stages completed when the run ends: the stages before the first
    one whose work fails. *)
Fixpoint succeeded (plan : list Stage) : list Stage :=
  match plan with
  | [] => []
  | st :: rest =>
      match work st tt with
      | Success => st :: succeeded rest
      | Failure _ => []
      end
  end.

(** Every stage's work succeeds. *)
Definition all_succeed (plan : list Stage) : bool :=
  forallb (fun st => match work st tt with Success => true | Failure _ => false end) plan.

(** How many terminal events a stream holds. *)
Definition terminal_count (evs : list ProgressEvent) : nat :=
  length (List.filter (fun ev => is_terminal (status ev)) evs).

(** The eleven steps of the live EDA analysis as the README lists them
    (5%, 15%, ..., 95%, 100%), every step succeeding. *)
Definition eda_plan : list Stage :=
  map (fun nw => {| name := nw.1; weight := nw.2; work := fun _ => Success |})
    [("Data Loading & Validation", 5%Z); ("Basic Statistics", 10%Z);
     ("Missing Values Analysis", 10%Z); ("Distribution Analysis", 10%Z);
     ("Correlation Analysis", 10%Z); ("Feature Importance", 10%Z);
     ("Outlier Detection", 10%Z); ("Data Quality Report", 10%Z);
     ("Visualization Generation", 10%Z); ("Summary & Recommendations", 10%Z);
     ("Complete", 5%Z)].

(** Scenario 2 of section 8: the same plan, with the work of stage 6
    throwing. *)
Definition eda_plan_stage6_fails : list Stage :=
  take 5 eda_plan
  ++ [{| name := "Feature Importance"; weight := 10%Z;
         work := fun _ => Failure "feature importance failed" |}]
  ++ drop 6 eda_plan.

End JobRunner.

(* ===================================================================== *)
(** ** The HTTP side of the service module *)
(* ===================================================================== *)

Module Http.

(** What the interceptors read and write of the browser: [localStorage]
    and [window.location.href]. *)
Record Browser := {
  localStorage : gmap string string;
  location_href : string
}.

(** The request configuration as far as the interceptor touches it. *)
Record RequestConfig := {
  request_url : string;
  headers : gmap string string
}.

(** An axios error: [error.response] is absent for a network failure. *)
Record Response := { status : Z }.
Record AxiosError := { response : option Response }.

(** The request interceptor: a stored token that is not the empty string
    is sent as a bearer token. *)
Definition on_request (b : Browser) (config : RequestConfig) : RequestConfig :=
  match localStorage b !! "auth_token" with
  | Some token =>
      if decide (token = "") then config
      else {| request_url := request_url config;
              headers := <["Authorization" := "Bearer " +:+ token]> (headers config) |}
  | None => config
  end.

(** The response interceptor's error branch.  The promise it returns is
    always rejected with the error it was given; the browser state is what
    changes. *)
Definition on_response_error (b : Browser) (error : AxiosError) : Browser * AxiosError :=
  match response error with
  | Some r =>
      if decide (status r = 401%Z) then
        ({| localStorage := delete "auth_token" (localStorage b);
            location_href := "/login" |}, error)
      else (b, error)
  | None => (b, error)
  end.

(** The [endpoints] table: the constant paths and the template literals. *)
Module endpoints.

Definition health : string := "/health".
Definition projects : string := "/api/projects".
Definition upload (projectId : string) : string :=
  "/api/projects/" +:+ projectId +:+ "/upload".

Module eda.
Definition analyze : string := "/api/eda/analyze".
Definition status (projectId datasetId : string) : string :=
  "/api/eda/" +:+ projectId +:+ "/" +:+ datasetId +:+ "/status".
Definition report (projectId datasetId : string) : string :=
  "/api/eda/" +:+ projectId +:+ "/" +:+ datasetId +:+ "/report".
End eda.

Module automl.
Definition train : string := "/api/automl/train".
Definition status (projectId : string) : string :=
  "/api/automl/" +:+ projectId +:+ "/status".
Definition leaderboard (projectId : string) : string :=
  "/api/automl/" +:+ projectId +:+ "/leaderboard".
End automl.

Module export.
Definition model (projectId modelId : string) : string :=
  "/api/export/" +:+ projectId +:+ "/model/" +:+ modelId.
Definition pipeline (projectId : string) : string :=
  "/api/export/" +:+ projectId +:+ "/pipeline".
End export.

End endpoints.

(** The URL [projectService.get] requests. *)
Definition project_url (id : string) : string := endpoints.projects +:+ "/" +:+ id.

(** A session for the scenarios: a stored token and a request the caller
    built with a header of its own. *)
Definition signed_in : Browser :=
  {| localStorage := {["auth_token" := "t0k3n"; "theme" := "light"]};
     location_href := "/projects" |}.

Definition some_request : RequestConfig :=
  {| request_url := "/api/projects"; headers := {["Accept" := "application/json"]} |}.

Definition unauthorized : AxiosError := {| response := Some {| status := 401 |} |}.
Definition network_down : AxiosError := {| response := None |}.

(** An id without a slash. *)
Fixpoint slash_free (s : string) : bool :=
  match s with
  | EmptyString => true
  | String c rest => if decide (c = "/"%char) then false else slash_free rest
  end.

End Http.

(* ===================================================================== *)
(** ** The training page, caller of the client *)
(* ===================================================================== *)

Module Pages.

(** The status of a model on the page. *)
Inductive ModelStatus := Mqueued | Mtraining | Mcompleted | Mfailed.

Section Page.

(** [Num] stands for the numbers [JSON.parse] yields, [num_is_zero] tells
    the two zeros from the rest, [Info] for the fields of a model the page
    only carries along. *)
Context {Num Info : Type}.
Variable num_zero : Num.
Variable num_is_zero : Num -> bool.

(** A value as [JSON.parse] returns it; an object is its own properties
    in order, each key once. *)
#[warnings="-register-all"] Inductive JsValue :=
| JNull
| JBool (b : bool)
| JNum (n : Num)
| JStr (s : string)
| JArr (items : list JsValue)
| JObj (fields : list (string * JsValue)).

(** The string a template literal makes of a number, an array or an
    object. *)
Variable ToString : JsValue -> string.

(** What reading a property gives. *)
Inductive Read := ReadThrows | ReadUndefined | ReadValue (v : JsValue).

Fixpoint own_property (key : string) (fields : list (string * JsValue)) : option JsValue :=
  match fields with
  | [] => None
  | (k, v) :: rest => if decide (k = key) then Some v else own_property key rest
  end.

(** [data.key] for the keys the page reads ([progress], [status],
    [message]), which no prototype defines: a TypeError on [null], the own
    property on an object, [undefined] on everything else. *)
Definition get (data : JsValue) (key : string) : Read :=
  match data with
  | JNull => ReadThrows
  | JObj fields =>
      match own_property key fields with
      | Some v => ReadValue v
      | None => ReadUndefined
      end
  | _ => ReadUndefined
  end.

(** Truthiness of a value that came out of [JSON.parse]. *)
Definition truthy (v : JsValue) : bool :=
  match v with
  | JNull => false
  | JBool b => b
  | JNum n => negb (num_is_zero n)
  | JStr s => if decide (s = "") then false else true
  | JArr _ | JObj _ => true
  end.

(** [x || fallback] for a property that was read without a throw. *)
Definition or_else (r : Read) (fallback : JsValue) : JsValue :=
  match r with
  | ReadValue v => if truthy v then v else fallback
  | _ => fallback
  end.

(** The text of a value inside a template literal. *)
Definition text (v : JsValue) : string :=
  match v with
  | JStr s => s
  | JNull => "null"
  | JBool true => "true"
  | JBool false => "false"
  | _ => ToString v
  end.

(** [data.status === literal]. *)
Definition status_is (data : JsValue) (literal : string) : bool :=
  match get data "status" with
  | ReadValue (JStr s) => if decide (s = literal) then true else false
  | _ => false
  end.

(** The state of [ModelTraining] the two callbacks, [loadLeaderboard] and
    [stopTraining] read and write: the project id of the route ([None] for
    [undefined]), the progress shown, the training flag, the error and
    success toasts in the order raised, the URLs requested with [api.get],
    and the models.  What the page writes to the console is left out. *)
Record Model := { model_status : ModelStatus; info : Info }.

Record TrainingPage := {
  projectId : option string;
  trainingProgress : JsValue;
  isTraining : bool;
  error_toasts : list string;
  success_toasts : list string;
  requests : list string;
  models : list Model
}.

Definition set_trainingProgress (v : JsValue) (p : TrainingPage) : TrainingPage :=
  {| projectId := projectId p; trainingProgress := v; isTraining := isTraining p;
     error_toasts := error_toasts p; success_toasts := success_toasts p;
     requests := requests p; models := models p |}.

Definition set_isTraining (b : bool) (p : TrainingPage) : TrainingPage :=
  {| projectId := projectId p; trainingProgress := trainingProgress p; isTraining := b;
     error_toasts := error_toasts p; success_toasts := success_toasts p;
     requests := requests p; models := models p |}.

Definition toast_error (msg : string) (p : TrainingPage) : TrainingPage :=
  {| projectId := projectId p; trainingProgress := trainingProgress p;
     isTraining := isTraining p;
     error_toasts := error_toasts p ++ [msg]; success_toasts := success_toasts p;
     requests := requests p; models := models p |}.

Definition toast_success (msg : string) (p : TrainingPage) : TrainingPage :=
  {| projectId := projectId p; trainingProgress := trainingProgress p;
     isTraining := isTraining p;
     error_toasts := error_toasts p; success_toasts := success_toasts p ++ [msg];
     requests := requests p; models := models p |}.

(** [api.get(url)]: the request leaves. *)
Definition api_get (url : string) (p : TrainingPage) : TrainingPage :=
  {| projectId := projectId p; trainingProgress := trainingProgress p;
     isTraining := isTraining p;
     error_toasts := error_toasts p; success_toasts := success_toasts p;
     requests := requests p ++ [url]; models := models p |}.

Definition set_models (l : list Model) (p : TrainingPage) : TrainingPage :=
  {| projectId := projectId p; trainingProgress := trainingProgress p;
     isTraining := isTraining p;
     error_toasts := error_toasts p; success_toasts := success_toasts p;
     requests := requests p; models := l |}.

(** [loadLeaderboard] up to its [await]: it returns at once without a
    project id ([undefined] or the empty string); otherwise
    [automlService.getLeaderboard(projectId)] sends its request.  The
    function is [async] and is not awaited by its caller, so nothing it
    throws reaches the caller; what it does when the request comes back is
    [leaderboard_settled] below. *)
Definition loadLeaderboard (p : TrainingPage) : TrainingPage :=
  match projectId p with
  | Some project =>
      if decide (project = "") then p
      else api_get (Http.endpoints.automl.leaderboard project) p
  | None => p
  end.

(** The first argument of [realtimeService.connect] in [startTraining]:
    [data.progress] is read first, so [null] throws before anything is
    set. *)
Definition training_onMessage (data : JsValue) (p : TrainingPage)
  : TrainingPage * Api.Completion :=
  match get data "progress" with
  | ReadThrows => (p, Api.Throws)
  | progress =>
      let p1 := set_trainingProgress (or_else progress (JNum num_zero)) p in
      if status_is data "completed" then (loadLeaderboard p1, Api.Normal)
      else if status_is data "failed" then
        (set_isTraining false
           (toast_error ("Training failed: "
                           +:+ text (or_else (get data "message") (JStr "Unknown error")))
              p1),
         Api.Normal)
      else (p1, Api.Normal)
  end.

(** The second argument: the error toast and the flag. *)
Definition training_onError (p : TrainingPage) : TrainingPage * Api.Completion :=
  (set_isTraining false (toast_error "Lost connection to training updates" p), Api.Normal).

Definition training_callbacks : Api.Callbacks JsValue TrainingPage :=
  {| Api.onMessage := training_onMessage; Api.onError := Some training_onError |}.

(** [stopTraining]: the flag, the models still queued or training marked
    failed, the toast. *)
Definition stop_model (m : Model) : Model :=
  match model_status m with
  | Mtraining | Mqueued => {| model_status := Mfailed; info := info m |}
  | Mcompleted | Mfailed => m
  end.

Definition stopTraining (p : TrainingPage) : TrainingPage :=
  toast_error "Training stopped"
    (set_models (map stop_model (models p)) (set_isTraining false p)).

(** How often a toast text was raised. *)
Definition raised (msg : string) (p : TrainingPage) : nat :=
  length (List.filter (fun t => if decide (t = msg) then true else false) (error_toasts p)).

End Page.

Arguments JsValue : clear implicits.
Arguments Read : clear implicits.
Arguments Model : clear implicits.
Arguments TrainingPage : clear implicits.

(** *** When the leaderboard comes back *)

Section Leaderboard.

Context {Num : Type}.
Variable num_zero : Num.
Variable num_hundred : Num.
Variable num_is_zero : Num -> bool.

(** The fields of a model of the page other than its status; [None] is
    [undefined]. *)
Record Fields := {
  id : option (JsValue Num);
  name : JsValue Num;
  algorithm : JsValue Num;
  progress : Num;
  accuracy : JsValue Num;
  precision : JsValue Num;
  recall : JsValue Num;
  f1Score : JsValue Num;
  trainingTime : JsValue Num;
  best_estimator : option (JsValue Num);
  metrics : option (JsValue Num)
}.

(** What the request comes back with: the promise of [api.get] rejects,
    or fulfils with a response whose [data] is the parsed body. *)
Inductive Reply := Rejects | Fulfils (data : JsValue Num).

(** A property that was read, as a value or [undefined]. *)
Definition value_of (r : Read Num) : option (JsValue Num) :=
  match r with
  | ReadValue v => Some v
  | _ => None
  end.

(** [x?.key] for [x] read without a throw. *)
Definition get_optional (x : Read Num) (key : string) : Read Num :=
  match x with
  | ReadValue JNull | ReadUndefined => ReadUndefined
  | ReadValue v => get v key
  | ReadThrows => ReadThrows
  end.

(** The object literal of the [map] callback, for an item that is not
    [null]. *)
Definition trained (item : JsValue Num) : Model Fields :=
  let zero := JNum num_zero in
  let item_metrics := get item "metrics" in
  {| model_status := Mcompleted;
     info :=
       {| id := value_of (get item "model_id");
          name := or_else num_is_zero (get item "best_estimator") (JStr "Unknown Model");
          algorithm := or_else num_is_zero (get item "best_estimator") (JStr "Unknown");
          progress := num_hundred;
          accuracy := or_else num_is_zero (get_optional item_metrics "accuracy")
                        (or_else num_is_zero (get_optional item_metrics "r2_score") zero);
          precision := or_else num_is_zero (get_optional item_metrics "precision") zero;
          recall := or_else num_is_zero (get_optional item_metrics "recall") zero;
          f1Score := or_else num_is_zero (get_optional item_metrics "f1_score") zero;
          trainingTime := or_else num_is_zero (get item "training_time") zero;
          best_estimator := value_of (get item "best_estimator");
          metrics := value_of item_metrics |} |}.

(** The [map] callback: [item.model_id] throws on [null]. *)
Definition trained_model (item : JsValue Num) : option (Model Fields) :=
  match item with
  | JNull => None
  | _ => Some (trained item)
  end.

(** [leaderboard.map(...)]: a TypeError unless [response.data] is an array,
    and whatever the callback throws. *)
Definition trainedModels (leaderboard : JsValue Num) : option (list (Model Fields)) :=
  match leaderboard with
  | JArr items => mapM trained_model items
  | _ => None
  end.

(** The [catch] of [loadLeaderboard]. *)
Definition leaderboard_failed (p : TrainingPage Num Fields) : TrainingPage Num Fields :=
  set_isTraining false (toast_error "Failed to load training results" p).

(** [loadLeaderboard] after its [await]: with the models made of the
    response the page replaces its models, turns the training flag off and
    raises the success toast; a rejected request and an exception of the
    conversion both end in the [catch]. *)
Definition leaderboard_settled (reply : Reply) (p : TrainingPage Num Fields)
  : TrainingPage Num Fields :=
  match reply with
  | Fulfils data =>
      match trainedModels data with
      | Some l =>
          toast_success "AutoML training completed successfully!"
            (set_isTraining false (set_models l p))
      | None => leaderboard_failed p
      end
  | Rejects => leaderboard_failed p
  end.

End Leaderboard.

Arguments Fields : clear implicits.
Arguments Reply : clear implicits.

(** *** A concrete page for the scenarios

    Numbers are integers, a model carries its name, and three payloads
    are understood by the parser. *)
Module Demo.

Definition object_text (_ : JsValue Z) : string := "[object Object]".

Definition is_zero (n : Z) : bool := (n =? 0)%Z.

Definition running_40 : JsValue Z :=
  JObj [("job_id", JStr "J1"); ("status", JStr "running"); ("progress", JNum 40%Z);
        ("message", JStr "Training")].

Definition failed_40 : JsValue Z :=
  JObj [("job_id", JStr "J1"); ("status", JStr "failed"); ("progress", JNum 40%Z);
        ("message", JStr "out of memory")].

Definition parse (payload : string) : option (JsValue Z) :=
  if decide (payload = "null") then Some JNull
  else if decide (payload = "running") then Some running_40
  else if decide (payload = "failed") then Some failed_40
  else None.

Definition never_throws (_ : string) : bool := false.

Definition callbacks : Api.Callbacks (JsValue Z) (TrainingPage Z string) :=
  training_callbacks 0%Z is_zero object_text.

Definition page : TrainingPage Z string :=
  {| projectId := Some "P1";
     trainingProgress := JNum 0%Z; isTraining := true; error_toasts := [];
     success_toasts := []; requests := [];
     models := [ {| model_status := Mcompleted; info := "LightGBM" |};
                 {| model_status := Mtraining; info := "XGBoost" |};
                 {| model_status := Mqueued; info := "Random Forest" |} ] |}.

Definition start : Api.World (JsValue Z) (TrainingPage Z string) := Api.fresh "J1" page.


Definition training : TrainingPage Z (Fields Z) :=
  {| projectId := Some "P1";
     trainingProgress := JNum 95%Z; isTraining := true; error_toasts := [];
     success_toasts := []; requests := ["/api/automl/P1/leaderboard"];
     models := [] |}.

(** A leaderboard of two models, the second with nothing but its id, and
    one with a [null] entry. *)
Definition two_models : JsValue Z :=
  JArr [JObj [("model_id", JStr "m1"); ("best_estimator", JStr "lgbm");
              ("metrics", JObj [("accuracy", JNum 0%Z); ("r2_score", JNum 93%Z)]);
              ("training_time", JNum 12%Z)];
        JObj [("model_id", JStr "m2")]].

Definition with_null_entry : JsValue Z :=
  JArr [JObj [("model_id", JStr "m1")]; JNull].

Definition dropped : Api.CloseEvent := {| Api.wasClean := false; Api.code := 1006 |}.

(** The page connected to its job. *)
Definition connected : Api.World (JsValue Z) (TrainingPage Z string) :=
  match Api.run parse never_throws start [Api.CallConnect callbacks; Api.EvOpen 0] with
  | Some (w, _) => w
  | None => start
  end.

(** The first attempt and two reconnects fail. *)
Definition three_failures : list (Api.Input (JsValue Z) (TrainingPage Z string)) :=
  [Api.CallConnect callbacks; Api.EvError 0; Api.EvClose 0 dropped;
   Api.TimerFires 0; Api.EvError 1; Api.EvClose 1 dropped;
   Api.TimerFires 1; Api.EvError 2; Api.EvClose 2 dropped].

(** Connected, then a [null] message and a progress message arrive. *)
Definition null_then_progress : list (Api.Input (JsValue Z) (TrainingPage Z string)) :=
  [Api.CallConnect callbacks; Api.EvOpen 0; Api.EvMessage 0 "null";
   Api.EvMessage 0 "running"].

End Demo.

End Pages.

(* ===================================================================== *)
(** ** Properties of the job runner *)
(* ===================================================================== *)

Module JobRunnerFacts.
Import JobRunner.

Local Open Scope Z_scope.

Lemma total_weight_cons st plan :
  total_weight (st :: plan) = weight st + total_weight plan.
Proof. reflexivity. Qed.

Lemma total_weight_nonneg plan :
  Forall (fun st => 0 <= weight st) plan -> 0 <= total_weight plan.
Proof.
  induction 1 as [|st plan Hst _ IH]; [reflexivity|].
  rewrite total_weight_cons. lia.
Qed.

Lemma valid_plan_nonempty plan : valid_plan plan -> plan <> [].
Proof. intros [_ Hsum] ->. discriminate Hsum. Qed.

(** The stream of a non-empty plan is a run of [running] events closed by
    one terminal event. *)
Lemma run_stages_shape job plan :
  plan <> [] ->
  forall reached, exists pre t,
    run_stages job reached plan = pre ++ [t]
    /\ is_terminal (status t) = true
    /\ Forall (fun ev => status ev = running) pre.
Proof.
  induction plan as [|st rest IH]; [congruence|].
  intros _ reached. cbn [run_stages].
  destruct (work st tt) as [|err].
  - destruct rest as [|st' rest'].
    + exists [], {| job_id := job; status := completed; progress := 100;
                    message := name st |}.
      repeat split; constructor.
    + destruct (IH ltac:(discriminate) (reached + weight st)) as (pre & t & Heq & Ht & Hpre).
      exists ({| job_id := job; status := running; progress := reached + weight st;
                 message := name st |} :: pre), t.
      rewrite Heq. repeat split; [exact Ht|]. constructor; [reflexivity | exact Hpre].
  - exists [], {| job_id := job; status := failed; progress := reached; message := err |}.
    repeat split; constructor.
Qed.

Lemma terminal_count_running pre :
  Forall (fun ev => status ev = running) pre -> terminal_count pre = 0%nat.
Proof.
  unfold terminal_count. induction 1 as [|ev pre Hev _ IH]; [reflexivity|].
  cbn. rewrite Hev. exact IH.
Qed.

Lemma terminal_count_app l1 l2 :
  terminal_count (l1 ++ l2) = (terminal_count l1 + terminal_count l2)%nat.
Proof. unfold terminal_count. by rewrite List.filter_app, length_app. Qed.

(** Progress never goes down and stays between what was reached and 100,
    as long as the remaining weights are non-negative and lead to 100. *)
Lemma run_stages_sorted job plan :
  forall reached,
    Forall (fun st => 0 <= weight st) plan ->
    reached + total_weight plan = 100 ->
    StronglySorted Z.le (map progress (run_stages job reached plan))
    /\ Forall (fun p => reached <= p <= 100) (map progress (run_stages job reached plan)).
Proof.
  induction plan as [|st rest IH]; intros reached Hnn Hsum.
  - split; constructor.
  - apply Forall_cons in Hnn as [Hst Hrest].
    rewrite total_weight_cons in Hsum.
    pose proof (total_weight_nonneg _ Hrest) as Hpos.
    cbn [run_stages]. destruct (work st tt) as [|err].
    + destruct rest as [|st' rest'].
      * cbn. split; repeat constructor; lia.
      * destruct (IH (reached + weight st) Hrest ltac:(lia)) as [Hs Hb].
        rewrite map_cons. cbn [progress]. split.
        -- constructor; [exact Hs|].
           eapply Forall_impl; [exact Hb|]. cbn. intros; lia.
        -- constructor; [lia|].
           eapply Forall_impl; [exact Hb|]. cbn. intros; lia.
    + cbn. split; repeat constructor; lia.
Qed.

(** Each progress value is the weight of a prefix of the plan on top of
    what had been reached. *)
Lemma run_stages_prefix_sums job plan :
  forall reached,
    reached + total_weight plan = 100 ->
    Forall (fun p => exists k, p = reached + total_weight (take k plan))
      (map progress (run_stages job reached plan)).
Proof.
  induction plan as [|st rest IH]; intros reached Hsum; [constructor|].
  rewrite total_weight_cons in Hsum.
  cbn [run_stages]. destruct (work st tt) as [|err].
  - destruct rest as [|st' rest'].
    + repeat constructor. exists 1%nat. cbn in *. lia.
    + rewrite map_cons. constructor.
      * exists 1%nat. cbn. lia.
      * eapply Forall_impl; [apply (IH (reached + weight st)); lia|].
        cbn beta. intros p [k ->]. exists (S k).
        rewrite firstn_cons, total_weight_cons. lia.
  - repeat constructor. exists 0%nat. cbn. lia.
Qed.

(** When every stage succeeds the progress values are the cumulative
    weights and the stream ends with the completed event. *)
Lemma run_stages_success job plan :
  forall reached,
    all_succeed plan = true ->
    reached + total_weight plan = 100 ->
    map progress (run_stages job reached plan) = cumulative reached plan
    /\ (plan <> [] ->
        exists ev, last (run_stages job reached plan) = Some ev
                   /\ status ev = completed /\ progress ev = 100).
Proof.
  induction plan as [|st rest IH]; intros reached Hok Hsum; [split; [reflexivity | congruence]|].
  rewrite total_weight_cons in Hsum.
  cbn [all_succeed forallb] in Hok. apply andb_prop in Hok as [Hst Hrest].
  cbn [run_stages cumulative]. destruct (work st tt) as [|err]; [|discriminate].
  destruct rest as [|st' rest'].
  - cbn in Hsum. split.
    + cbn. f_equal. lia.
    + intros _. eexists. repeat split.
  - destruct (IH (reached + weight st) Hrest ltac:(lia)) as [Hp Hl].
    split.
    + rewrite map_cons. cbn [progress]. by rewrite Hp.
    + intros _. destruct (Hl ltac:(discriminate)) as (ev & Hev & Hs & Hpr).
      exists ev. split; [|by split].
      rewrite <- Hev. remember (run_stages job (reached + weight st) (st' :: rest')) as l.
      destruct l; [discriminate Hev|reflexivity].
Qed.

(** C6. For every job the runner executes (any non-empty plan, hence any
    Stage Plan, whatever the outcome of its stages), the event stream is a
    sequence of non-terminal events followed by one terminal event: it
    holds exactly one terminal event and that event is the last one. *)
Theorem exactly_one_terminal_event_last job plan :
  plan <> [] ->
  exists pre t,
    run_job job plan = pre ++ [t]
    /\ is_terminal (status t) = true
    /\ Forall (fun ev => is_terminal (status ev) = false) pre
    /\ terminal_count (run_job job plan) = 1%nat.
Proof.
  intros Hne. unfold run_job.
  destruct (run_stages_shape job plan Hne 0) as (pre & t & Heq & Ht & Hpre).
  exists pre, t. rewrite Heq. repeat split; [exact Ht | |].
  - eapply Forall_impl; [exact Hpre|]. cbn. by intros ev ->.
  - rewrite terminal_count_app, (terminal_count_running _ Hpre).
    unfold terminal_count. cbn. by rewrite Ht.
Qed.

Lemma exactly_one_terminal_event_last_witness :
  eda_plan <> [] /\
  exists pre t,
    run_job "J1" eda_plan = pre ++ [t]
    /\ is_terminal (status t) = true
    /\ Forall (fun ev => is_terminal (status ev) = false) pre
    /\ terminal_count (run_job "J1" eda_plan) = 1%nat.
Proof.
  split; [discriminate|].
  apply (exactly_one_terminal_event_last "J1" eda_plan). discriminate.
Defined.

(** The stages completed are a prefix of the plan. *)
Lemma succeeded_prefix plan : succeeded plan = take (length (succeeded plan)) plan.
Proof.
  induction plan as [|st rest IH]; [reflexivity|].
  cbn. destruct (work st tt); [|reflexivity]. cbn. by rewrite <- IH.
Qed.

(** When some stage fails, the running events carry the cumulative weights
    of the stages completed, one each, and the failed event that closes
    the stream repeats the last value reached. *)
Lemma run_stages_failure job plan :
  forall reached,
    all_succeed plan = false ->
    map progress (run_stages job reached plan)
    = cumulative reached (succeeded plan) ++ [reached + total_weight (succeeded plan)]
    /\ map status (run_stages job reached plan)
       = replicate (length (succeeded plan)) running ++ [failed].
Proof.
  induction plan as [|st rest IH]; intros reached Hko; [discriminate Hko|].
  cbn [all_succeed forallb] in Hko. cbn [run_stages succeeded].
  destruct (work st tt) as [|err].
  - cbn in Hko. destruct rest as [|st' rest']; [discriminate Hko|].
    destruct (IH (reached + weight st) Hko) as [Hp Hs].
    rewrite !map_cons, Hp, Hs. cbn [progress status cumulative length replicate].
    rewrite total_weight_cons. split; [|reflexivity].
    cbn. do 2 f_equal. f_equal. lia.
  - cbn. split; [|reflexivity]. do 2 f_equal. lia.
Qed.

(** C7. For every Stage Plan (non-negative weights summing to 100) the
    progress values the runner emits never decrease and each is the
    cumulative weight of the stages completed so far.  When every stage
    succeeds they are exactly the cumulative weights of the plan and the
    last event is completed with progress 100.  When a stage fails they
    are exactly the cumulative weights of the stages completed before it,
    as running events, followed by one failed event that repeats the last
    value reached.  The eleven-stage plan with weights 5,10,...,10,5 emits
    5,15,...,95,100, the last event completed; with stage 6 failing it
    emits 5,15,25,35,45 and then failed at 45. *)
Theorem progress_nondecreasing_ends_at_100 job plan :
  valid_plan plan ->
  StronglySorted Z.le (map progress (run_job job plan))
  /\ Forall (fun p => exists k, p = total_weight (take k plan)) (map progress (run_job job plan))
  /\ (all_succeed plan = true ->
      map progress (run_job job plan) = cumulative 0 plan
      /\ exists ev, last (run_job job plan) = Some ev
                    /\ status ev = completed /\ progress ev = 100)
  /\ map weight eda_plan = [5; 10; 10; 10; 10; 10; 10; 10; 10; 10; 5]
  /\ map progress (run_job job eda_plan) = [5; 15; 25; 35; 45; 55; 65; 75; 85; 95; 100]
  /\ (status <$> last (run_job job eda_plan)) = Some completed
  /\ (all_succeed plan = false ->
      map progress (run_job job plan)
      = cumulative 0 (succeeded plan) ++ [total_weight (succeeded plan)]
      /\ map status (run_job job plan)
         = replicate (length (succeeded plan)) running ++ [failed]
      /\ succeeded plan = take (length (succeeded plan)) plan)
  /\ map progress (run_job job eda_plan_stage6_fails) = [5; 15; 25; 35; 45; 45]
  /\ map status (run_job job eda_plan_stage6_fails)
     = [running; running; running; running; running; failed].
Proof.
  intros Hv. pose proof (valid_plan_nonempty _ Hv) as Hne.
  destruct Hv as [Hnn Hsum]. unfold run_job.
  split; [apply run_stages_sorted; [exact Hnn | lia]|].
  split; [apply (run_stages_prefix_sums job plan 0); lia|].
  split.
  { intros Hok. destruct (run_stages_success job plan 0 Hok ltac:(lia)) as [Hp Hl].
    split; [exact Hp | exact (Hl Hne)]. }
  split; [reflexivity|]. split; [reflexivity|]. split; [reflexivity|].
  split; [|split; reflexivity].
  intros Hko. destruct (run_stages_failure job plan 0 Hko) as [Hp Hs].
  split; [exact Hp|]. split; [exact Hs | apply succeeded_prefix].
Qed.

Lemma progress_nondecreasing_ends_at_100_witness :
  valid_plan eda_plan
  /\ map progress (run_job "J1" eda_plan) = cumulative 0 eda_plan
  /\ valid_plan eda_plan_stage6_fails
  /\ map progress (run_job "J1" eda_plan_stage6_fails)
     = cumulative 0 (succeeded eda_plan_stage6_fails)
       ++ [total_weight (succeeded eda_plan_stage6_fails)].
Proof.
  assert (Hv : valid_plan eda_plan).
  { split; [|reflexivity]. repeat constructor; cbn; lia. }
  assert (Hv' : valid_plan eda_plan_stage6_fails).
  { split; [|reflexivity]. repeat constructor; cbn; lia. }
  split; [exact Hv|].
  destruct (progress_nondecreasing_ends_at_100 "J1" eda_plan Hv) as (_ & _ & Hok & _).
  split; [exact (proj1 (Hok eq_refl))|]. split; [exact Hv'|].
  destruct (progress_nondecreasing_ends_at_100 "J1" eda_plan_stage6_fails Hv')
    as (_ & _ & _ & _ & _ & _ & Hko & _).
  exact (proj1 (Hko eq_refl)).
Defined.

End JobRunnerFacts.

(* ===================================================================== *)
(** ** Properties of the client *)
(* ===================================================================== *)

Module ApiFacts.
Import Api.

Section Facts.

Context {Data Caller : Type}.
Variable JSON_parse : string -> option Data.
Variable WebSocket_throws : string -> bool.

Local Abbreviation World := (World Data Caller).
Local Abbreviation Input := (Input Data Caller).
Local Abbreviation Effect := (Effect Data).
Local Abbreviation step := (step JSON_parse WebSocket_throws).
Local Abbreviation run := (run JSON_parse WebSocket_throws).
Local Abbreviation reachable := (reachable JSON_parse WebSocket_throws).

(** *** What [settle] leaves alone *)

Lemma settle_this p st (w : World) : this (settle p st w) = this w.
Proof. unfold settle. repeat case_match; reflexivity. Qed.

Lemma settle_timers p st (w : World) : timers (settle p st w) = timers w.
Proof. unfold settle. repeat case_match; reflexivity. Qed.

(** *** Runs *)

Lemma reachable_run (w : World) ins w' e :
  reachable w -> run w ins = Some (w', e) -> reachable w'.
Proof.
  revert w e. induction ins as [|i ins IH]; intros w e Hr H; cbn in H.
  - by injection H as <- _.
  - destruct (step w i) as [[wa ea]|] eqn:Hs; [|discriminate].
    destruct (run wa ins) as [[wb eb]|] eqn:Hb; [|discriminate].
    injection H as <- _. eapply IH; [|exact Hb]. eapply reachable_step; eauto.
Qed.

(** *** The fields nobody assigns *)

Lemma step_config (w : World) i w' e :
  step w i = Some (w', e) ->
  jobId (this w') = jobId (this w)
  /\ maxReconnectAttempts (this w') = maxReconnectAttempts (this w)
  /\ reconnectInterval (this w') = reconnectInterval (this w).
Proof.
  destruct i; cbn;
    unfold connect, disconnect, onopen, onmessage, onerror, onclose,
      timeout_callback, connect, attemptReconnect;
    intros H; repeat case_match; simplify_eq; cbn;
    rewrite ?settle_this; cbn; auto.
Qed.

Lemma reachable_config (w : World) :
  reachable w ->
  maxReconnectAttempts (this w) = 5 /\ reconnectInterval (this w) = 3000.
Proof.
  induction 1 as [job c|w i w' e _ IH Hs]; [split; reflexivity|].
  destruct (step_config _ _ _ _ Hs) as (_ & -> & ->). exact IH.
Qed.

(** C4. Whenever the open event of a socket fires, in any state,
    [reconnectAttempts] is zero right after the handler has run. *)
Theorem open_resets_reconnectAttempts (w : World) s w' e :
  step w (EvOpen s) = Some (w', e) ->
  reconnectAttempts (this w') = 0.
Proof.
  cbn. unfold onopen. intros H. repeat case_match; simplify_eq.
  by rewrite settle_this.
Qed.

(** C8. On an instance that is already disconnected ([ws] is null)
    [disconnect()] is a no-op: the world is unchanged, nothing observable
    happens and nothing is thrown.  [disconnect()] always leaves the
    instance in that state, so a second call right after a first one, and
    any further call, changes nothing. *)
Theorem disconnect_idempotent (w : World) :
  (ws (this w) = None ->
   disconnect w = (w, []) /\ step w CallDisconnect = Some (w, []))
  /\ ws (this (disconnect w).1) = None
  /\ disconnect (disconnect w).1 = ((disconnect w).1, [])
  /\ step (disconnect w).1 CallDisconnect = Some ((disconnect w).1, []).
Proof.
  assert (Hnull : forall v : World, ws (this v) = None -> disconnect v = (v, [])).
  { intros v Hv. unfold disconnect. by rewrite Hv. }
  assert (Hws : ws (this (disconnect w).1) = None).
  { unfold disconnect. destruct (ws (this w)) eqn:Hw; [reflexivity | exact Hw]. }
  split; [|split; [exact Hws|split]].
  - intros Hw. cbn [Api.step]. by rewrite (Hnull w Hw).
  - exact (Hnull _ Hws).
  - cbn [Api.step]. by rewrite (Hnull _ Hws).
Qed.

(** *** Messages *)

Lemma onMessage_calls_app (e1 e2 : list Effect) :
  onMessage_calls (e1 ++ e2) = onMessage_calls e1 ++ onMessage_calls e2.
Proof. apply omap_app. Qed.

Lemma step_onMessage_calls (w : World) i w' e :
  step w i = Some (w', e) ->
  onMessage_calls e = wellformed JSON_parse [i].
Proof.
  destruct i; cbn;
    unfold connect, disconnect, onopen, onmessage, onerror, onclose,
      timeout_callback, connect, attemptReconnect;
    intros H; repeat case_match; simplify_eq; cbn in *; simplify_eq;
    reflexivity.
Qed.

Lemma run_onMessage_calls ins : forall (w : World) w' e,
  run w ins = Some (w', e) ->
  onMessage_calls e = wellformed JSON_parse ins.
Proof.
  induction ins as [|i ins IH]; intros w w' e H; cbn in H.
  - by injection H as _ <-.
  - destruct (step w i) as [[wa ea]|] eqn:Hs; [|discriminate].
    destruct (run wa ins) as [[wb eb]|] eqn:Hb; [|discriminate].
    injection H as _ <-.
    rewrite onMessage_calls_app, (step_onMessage_calls _ _ _ _ Hs), (IH _ _ _ Hb).
    change (i :: ins) with ([i] ++ ins). unfold wellformed. by rewrite omap_app.
Qed.

(** A well-formed message runs the handler of its socket on the caller's
    state, once, and nothing else of the world changes. *)
Lemma step_wellformed (v : World) s k payload d v' e :
  sockets v !! s = Some k ->
  JSON_parse payload = Some d ->
  step v (EvMessage s payload) = Some (v', e) ->
  caller v' = (onMessage (handlers k) d (caller v)).1
  /\ In (CallOnMessage s d) e
  /\ onMessage_calls e = [(s, d)]
  /\ this v' = this v /\ sockets v' = sockets v
  /\ timers v' = timers v /\ promises v' = promises v.
Proof.
  intros Hk Hp Hs. cbn in Hs. rewrite Hk in Hs. unfold onmessage in Hs.
  rewrite Hp in Hs.
  destruct (readyState k); try discriminate Hs.
  destruct (onMessage (handlers k) d (caller v)) as [c []];
    injection Hs as <- <-; cbn; repeat split; auto.
Qed.

(** A run of messages on one socket: the caller's state is the handler
    folded over the well-formed ones, in the order they arrived. *)
Lemma run_messages payloads : forall (v : World) s k v' e,
  sockets v !! s = Some k ->
  run v (EvMessage s <$> payloads) = Some (v', e) ->
  caller v' = handled (handlers k) (omap JSON_parse payloads) (caller v)
  /\ onMessage_calls e = pair s <$> omap JSON_parse payloads
  /\ this v' = this v /\ sockets v' = sockets v.
Proof.
  induction payloads as [|payload payloads IH]; intros v s k v' e Hk H;
    cbn [fmap list_fmap Api.run] in H.
  - injection H as <- <-. by repeat split.
  - destruct (step v (EvMessage s payload)) as [[va ea]|] eqn:Hs; [|discriminate].
    destruct (run va (EvMessage s <$> payloads)) as [[vb eb]|] eqn:Hb; [|discriminate].
    injection H as <- <-. rewrite onMessage_calls_app. cbn [omap list_omap].
    destruct (JSON_parse payload) as [d|] eqn:Hp.
    + destruct (step_wellformed _ _ _ _ _ _ _ Hk Hp Hs)
        as (Hc & _ & Hcalls & Hthis & Hso & _).
      rewrite <- Hso in Hk. destruct (IH _ _ _ _ _ Hk Hb) as (Hc' & Hcalls' & Hthis' & Hso').
      rewrite Hcalls, Hcalls', Hc', Hc. cbn. repeat split; congruence.
    + assert (Hsame : va = v /\ ea = [ConsoleError "Failed to parse WebSocket message:"]).
      { cbn in Hs. rewrite Hk in Hs. unfold onmessage in Hs. rewrite Hp in Hs.
        destruct (readyState k); try discriminate Hs. by injection Hs as <- <-. }
      destruct Hsame as [-> ->]. exact (IH _ _ _ _ _ Hk Hb).
Qed.

(** C5. A message that does not parse is logged and dropped: the step
    changes nothing in the world (socket store, [ws], counter, timers,
    promises and the caller's state, so the handler did not run and the
    socket is still open) and its only effect is the [console.error] line.
    In whatever follows, the handler is called for exactly the well-formed
    messages, in the order they arrive: every well-formed message applies
    the handler of its socket to the caller's state, once, and after any
    sequence of messages on the socket the caller's state is the handler
    folded over the well-formed ones in arrival order. *)
Theorem malformed_dropped_wellformed_in_order (w : World) s payload w1 e1 ins w2 e2 :
  JSON_parse payload = None ->
  step w (EvMessage s payload) = Some (w1, e1) ->
  run w1 ins = Some (w2, e2) ->
  w1 = w
  /\ e1 = [ConsoleError "Failed to parse WebSocket message:"]
  /\ onMessage_calls e1 = []
  /\ (exists k, sockets w1 !! s = Some k /\ readyState k = OPEN)
  /\ onMessage_calls (e1 ++ e2) = wellformed JSON_parse (EvMessage s payload :: ins)
  /\ onMessage_calls e2 = wellformed JSON_parse ins
  /\ (exists k, sockets w1 !! s = Some k
       /\ forall payloads w3 e3,
            run w (EvMessage s <$> (payload :: payloads)) = Some (w3, e3) ->
            caller w3 = handled (handlers k) (omap JSON_parse payloads) (caller w)
            /\ onMessage_calls e3 = pair s <$> omap JSON_parse payloads
            /\ this w3 = this w /\ sockets w3 = sockets w)
  /\ (forall (v : World) s' k' payload' d v' e',
        sockets v !! s' = Some k' ->
        JSON_parse payload' = Some d ->
        step v (EvMessage s' payload') = Some (v', e') ->
        caller v' = (onMessage (handlers k') d (caller v)).1
        /\ onMessage_calls e' = [(s', d)]
        /\ this v' = this v /\ sockets v' = sockets v
        /\ timers v' = timers v /\ promises v' = promises v).
Proof.
  intros Hp Hs Hr.
  assert (Hrun : run w (EvMessage s payload :: ins) = Some (w2, e1 ++ e2)).
  { cbn [Api.run]. by rewrite Hs, Hr. }
  pose proof (run_onMessage_calls _ _ _ _ Hrun) as Hall.
  pose proof (run_onMessage_calls _ _ _ _ Hr) as Hrest.
  cbn in Hs. unfold onmessage in Hs. rewrite Hp in Hs.
  destruct (sockets w !! s) as [k|] eqn:Hk; [|discriminate].
  destruct (readyState k) eqn:Hst; try discriminate.
  injection Hs as <- <-.
  split; [reflexivity|]. split; [reflexivity|]. split; [reflexivity|].
  split; [eauto|]. split; [exact Hall|]. split; [exact Hrest|]. split.
  - exists k. split; [exact Hk|]. intros payloads w3 e3 H3.
    destruct (run_messages (payload :: payloads) _ _ _ _ _ Hk H3) as (Hc & Hcalls & Ht & Hso).
    cbn [omap list_omap] in Hc, Hcalls. rewrite Hp in Hc, Hcalls. by repeat split.
  - intros v s' k' payload' d v' e' Hk' Hp' Hs'.
    destruct (step_wellformed _ _ _ _ _ _ _ Hk' Hp' Hs') as (H1 & _ & H2 & H3 & H4 & H5 & H6).
    by repeat split.
Qed.


(** *** Counting reconnects *)

Lemma scheduled_app (e1 e2 : list Effect) :
  scheduled (e1 ++ e2) = scheduled e1 ++ scheduled e2.
Proof. apply omap_app. Qed.

Lemma waiting_fire (l : list (Timer Data Caller)) t tm :
  l !! t = Some tm ->
  pending tm = true ->
  S (length (List.filter pending
       (<[t := {| delay := delay tm; captured := captured tm; pending := false |}]> l)))
  = length (List.filter pending l).
Proof.
  revert t. induction l as [|x l IH]; intros [|t] Hl Hp; cbn in *; try discriminate.
  - injection Hl as ->. by rewrite Hp.
  - pose proof (IH t Hl Hp) as IH'. destruct (pending x); cbn in *;
      [f_equal|]; exact IH'.
Qed.

Lemma waiting_schedule (l : list (Timer Data Caller)) ms cb :
  length (List.filter pending (l ++ [{| delay := ms; captured := cb; pending := true |}]))
  = S (length (List.filter pending l)).
Proof. rewrite List.filter_app, length_app. cbn. lia. Qed.

(** What one step does to the counter and to the timers. *)
Lemma step_accounting (w : World) i w' e :
  step w i = Some (w', e) ->
  Forall (fun ms => ms = reconnectInterval (this w)) (scheduled e)
  /\ (scheduled e <> [] -> reconnectAttempts (this w') <= maxReconnectAttempts (this w))
  /\ match i with
     | EvOpen _ => reconnectAttempts (this w') = 0
     | _ => reconnectAttempts (this w') = reconnectAttempts (this w) + length (scheduled e)
     end
  /\ waiting w' + fired [i] = waiting w + length (scheduled e).
Proof.
  unfold waiting.
  destruct i; cbn;
    unfold connect, disconnect, onopen, onmessage, onerror, onclose,
      timeout_callback, connect, attemptReconnect;
    intros H; repeat case_match; simplify_eq; cbn;
    rewrite ?settle_this, ?settle_timers; cbn;
    rewrite ?waiting_schedule;
    repeat match goal with
      | H : (_ <? _) = true |- _ => apply Nat.ltb_lt in H
      | |- _ /\ _ => split
      end;
    try (repeat constructor; done);
    try (intros Hne; first [by destruct Hne | lia]);
    try lia;
    match goal with
    | Hl : timers _ !! _ = Some ?tm, Hp : pending ?tm = true |- _ =>
        pose proof (waiting_fire _ _ _ Hl Hp); lia
    end.
Qed.

Lemma run_accounting ins : forall (w : World) w' e,
  run w ins = Some (w', e) ->
  Forall (fun ms => ms = reconnectInterval (this w)) (scheduled e)
  /\ waiting w' + fired ins = waiting w + length (scheduled e)
  /\ (no_open ins = true ->
      reconnectAttempts (this w') = reconnectAttempts (this w) + length (scheduled e)
      /\ (scheduled e <> [] -> reconnectAttempts (this w') <= maxReconnectAttempts (this w))).
Proof.
  induction ins as [|i ins IH]; intros w w' e H; cbn [Api.run] in H.
  - injection H as <- <-. cbn. repeat split; try lia; [constructor | congruence].
  - destruct (step w i) as [[wa ea]|] eqn:Hs; [|discriminate].
    destruct (run wa ins) as [[wb eb]|] eqn:Hb; [|discriminate].
    injection H as <- <-.
    destruct (step_config _ _ _ _ Hs) as (_ & Hmax & Hint).
    destruct (step_accounting _ _ _ _ Hs) as (Hd1 & Hle1 & Hc1 & Hw1).
    destruct (IH _ _ _ Hb) as (Hd2 & Hw2 & Hno2).
    rewrite scheduled_app, length_app. rewrite Hint in Hd2. rewrite Hmax in Hno2.
    split; [by apply Forall_app|]. split.
    + change (i :: ins) with ([i] ++ ins). unfold fired in *.
      rewrite List.filter_app, length_app. lia.
    + intros Hno. cbn [no_open forallb] in Hno. apply andb_prop in Hno as [Hi Hrest].
      destruct (Hno2 Hrest) as [Hc2 Hle2].
      assert (Hc1' : reconnectAttempts (this wa)
                     = reconnectAttempts (this w) + length (scheduled ea))
        by (destruct i; solve [exact Hc1 | discriminate Hi]).
      split; [lia|]. intros Hne.
      destruct (scheduled eb) as [|x l] eqn:Heb.
      * rewrite app_nil_r in Hne. cbn in Hc2. specialize (Hle1 Hne). lia.
      * apply Hle2. discriminate.
Qed.

(** The constructor is called once per call of [connect], by the caller
    or by a timer, and by nothing else. *)
Lemma step_connection_attempts (w : World) i w' e :
  step w i = Some (w', e) ->
  connection_attempts e = connect_calls [i] + fired [i].
Proof.
  destruct i; cbn;
    unfold connect, disconnect, onopen, onmessage, onerror, onclose,
      timeout_callback, connect, attemptReconnect;
    intros H; repeat case_match; simplify_eq; reflexivity.
Qed.

Lemma run_connection_attempts ins : forall (w : World) w' e,
  run w ins = Some (w', e) ->
  connection_attempts e = connect_calls ins + fired ins.
Proof.
  induction ins as [|i ins IH]; intros w w' e H; cbn [Api.run] in H.
  - by injection H as _ <-.
  - destruct (step w i) as [[wa ea]|] eqn:Hs; [|discriminate].
    destruct (run wa ins) as [[wb eb]|] eqn:Hb; [|discriminate].
    injection H as _ <-.
    pose proof (step_connection_attempts _ _ _ _ Hs) as H1.
    pose proof (IH _ _ _ Hb) as H2.
    change (i :: ins) with ([i] ++ ins).
    unfold connection_attempts, connect_calls, fired in *.
    rewrite !List.filter_app, !length_app. lia.
Qed.

(** Every timer the instance ever set asked for the reconnect interval. *)
Lemma step_timers_delay (w : World) i w' e ms :
  step w i = Some (w', e) ->
  reconnectInterval (this w) = ms ->
  Forall (fun tm => delay tm = ms) (timers w) ->
  Forall (fun tm => delay tm = ms) (timers w').
Proof.
  intros Hs Hint Hall.
  assert (Hins : forall t tm,
    timers w !! t = Some tm ->
    Forall (fun tm => delay tm = ms)
      (<[t := {| delay := delay tm; captured := captured tm; pending := false |}]> (timers w))).
  { intros t tm Ht. apply Forall_insert; [exact Hall|]. cbn.
    by eapply (Forall_lookup_1 _ _ _ _ Hall). }
  destruct i; cbn in Hs;
    unfold connect, disconnect, onopen, onmessage, onerror, onclose,
      timeout_callback, connect, attemptReconnect in Hs;
    repeat case_match; simplify_eq; cbn;
    rewrite ?settle_timers; cbn; eauto.
  all: apply Forall_app; split; [exact Hall | by repeat constructor].
Qed.

Lemma reachable_timers_delay (w : World) :
  reachable w -> Forall (fun tm => delay tm = 3000) (timers w).
Proof.
  induction 1 as [job c|w i w' e Hr IH Hs]; [constructor|].
  eapply step_timers_delay; [exact Hs | apply (reachable_config _ Hr) | exact IH].
Qed.

(** The counter never passes the maximum. *)
Lemma reachable_counter_bound (w : World) :
  reachable w -> reconnectAttempts (this w) <= 5.
Proof.
  induction 1 as [job c|w i w' e Hr IH Hs]; [cbn; lia|].
  destruct (reachable_config _ Hr) as [Hmax _].
  destruct (step_accounting _ _ _ _ Hs) as (_ & Hle & Hc & _).
  destruct (scheduled e) as [|x l] eqn:He.
  - destruct i; cbn in Hc; lia.
  - rewrite <- Hmax. apply Hle. discriminate.
Qed.

(** C2. In a run without an open event (a streak in which the counter is
    never reset) from any reachable state, at most five reconnects are
    scheduled, counter included: every [setTimeout] asks for 3000 ms, each
    one adds one to [reconnectAttempts], and the counter and the number
    scheduled together never pass 5.  The retries are the connection
    attempts the caller did not ask for; each is made by a timer that
    waited 3000 ms, and there are no more of them than timers waiting at
    the start plus timers scheduled. *)
Theorem at_most_five_reconnects_per_streak (w : World) ins w' e :
  reachable w ->
  no_open ins = true ->
  run w ins = Some (w', e) ->
  Forall (fun ms => ms = 3000) (scheduled e)
  /\ reconnectAttempts (this w') = reconnectAttempts (this w) + length (scheduled e)
  /\ reconnectAttempts (this w) + length (scheduled e) <= 5
  /\ length (scheduled e) <= 5
  /\ connection_attempts e = connect_calls ins + fired ins
  /\ fired ins <= waiting w + length (scheduled e)
  /\ Forall (fun tm => delay tm = 3000) (timers w')
  /\ maxReconnectAttempts (this w') = 5
  /\ reconnectInterval (this w') = 3000.
Proof.
  intros Hr Hno Hrun.
  destruct (reachable_config _ Hr) as [Hmax Hint].
  destruct (run_accounting _ _ _ _ Hrun) as (Hd & Hw & Hc).
  destruct (Hc Hno) as [Heq Hle]. rewrite Hint in Hd.
  pose proof (reachable_run _ _ _ _ Hr Hrun) as Hr'.
  pose proof (reachable_counter_bound _ Hr') as Hb.
  destruct (reachable_config _ Hr') as [Hmax' Hint'].
  pose proof (run_connection_attempts _ _ _ _ Hrun) as Hca.
  pose proof (reachable_timers_delay _ Hr') as Htd.
  repeat split; try assumption; lia.
Qed.

(** *** Closing, disconnecting, giving up *)

(** A socket that is not closed yet accepts its close event, and the
    handler goes through [attemptReconnect]. *)
Lemma step_close (w : World) s k ev :
  sockets w !! s = Some k ->
  readyState k <> CLOSED ->
  step w (EvClose s ev) =
    Some (onclose k (set_sockets (<[s := set_readyState CLOSED k]> (sockets w)) w)).
Proof. intros Hk Hst. cbn. rewrite Hk. by destruct (readyState k). Qed.

(** Below the maximum, [attemptReconnect] counts the attempt and sets the
    timer; at the maximum it does nothing at all. *)
Lemma attemptReconnect_below cb (w : World) :
  reconnectAttempts (this w) < maxReconnectAttempts (this w) ->
  attemptReconnect cb w =
    (set_timers (timers w ++ [{| delay := reconnectInterval (this w);
                                 captured := cb; pending := true |}])
       (set_this (set_reconnectAttempts (S (reconnectAttempts (this w))) (this w)) w),
     [ConsoleLog ("Attempting to reconnect... (" +:+ pretty (S (reconnectAttempts (this w)))
                    +:+ "/" +:+ pretty (maxReconnectAttempts (this w)) +:+ ")");
      SetTimeout (length (timers w)) (reconnectInterval (this w))]).
Proof. intros H. apply Nat.ltb_lt in H. unfold attemptReconnect. by rewrite H. Qed.

Lemma attemptReconnect_exhausted cb (w : World) :
  maxReconnectAttempts (this w) <= reconnectAttempts (this w) ->
  attemptReconnect cb w = (w, []).
Proof. intros H. apply Nat.ltb_ge in H. unfold attemptReconnect. by rewrite H. Qed.

(** A waiting timer runs [connect], which calls the constructor. *)
Lemma step_timer (w : World) t tm :
  timers w !! t = Some tm ->
  pending tm = true ->
  exists w' e,
    step w (TimerFires t) = Some (w', e)
    /\ In (NewWebSocket ("ws://localhost:8000/ws/job/" +:+ jobId (this w))) e
    /\ attempts_connection e = true.
Proof.
  intros Ht Hp. cbn. rewrite Ht, Hp. unfold timeout_callback, connect. cbn.
  destruct (WebSocket_throws _); eexists _, _; (split; [reflexivity|]);
    cbn; auto.
Qed.

(** C9. The close handler reads nothing of the close event: for every
    closure of a socket, clean or not, the step is the same and goes
    through [attemptReconnect]; whenever the counter is below 5 it
    schedules a reconnect after 3000 ms with the socket's own callbacks,
    and that timer, when it fires, opens a new socket for the same job. *)
Theorem close_always_schedules_reconnect (w : World) s k ev :
  reachable w ->
  sockets w !! s = Some k ->
  readyState k <> CLOSED ->
  reconnectAttempts (this w) < 5 ->
  exists w' e,
    (forall ev', step w (EvClose s ev') = Some (w', e))
    /\ step w (EvClose s ev) = Some (w', e)
    /\ scheduled e = [3000]
    /\ reconnectAttempts (this w') = S (reconnectAttempts (this w))
    /\ timers w' = timers w ++ [{| delay := 3000; captured := handlers k; pending := true |}]
    /\ exists w'' e'',
         step w' (TimerFires (length (timers w))) = Some (w'', e'')
         /\ In (NewWebSocket ("ws://localhost:8000/ws/job/" +:+ jobId (this w))) e''.
Proof.
  intros Hr Hk Hst Hlt.
  destruct (reachable_config _ Hr) as [Hmax Hint].
  pose (r := onclose k (set_sockets (<[s := set_readyState CLOSED k]> (sockets w)) w)).
  exists r.1, r.2. rewrite <- surjective_pairing.
  split; [intros ev'; by apply step_close|].
  split; [by apply step_close|].
  unfold r, onclose. rewrite attemptReconnect_below by (cbn; lia).
  cbn. rewrite Hint. repeat split.
  edestruct (step_timer
    (set_timers (timers w ++ [{| delay := 3000; captured := handlers k; pending := true |}])
       (set_this (set_reconnectAttempts (S (reconnectAttempts (this w))) (this w))
          (set_sockets (<[s := set_readyState CLOSED k]> (sockets w)) w)))
    (length (timers w))) as (w'' & e'' & Hs & Hin & _).
  - cbn. by apply list_lookup_middle.
  - reflexivity.
  - exists w'', e''. split; [exact Hs | exact Hin].
Qed.

(** X20. [disconnect()] cancels nothing.  In every state it clears [ws] and
    leaves the timers and the counter as they are; it closes the socket
    [ws] referred to, if there was one.  Every reconnect timer that is
    waiting when it is called is still waiting when it returns and calls
    the constructor when it fires, and the close event of the socket just
    closed still schedules a reconnect while the counter is below the
    maximum. *)
Lemma disconnect_cancels_nothing (w : World) :
  ws (this (disconnect w).1) = None
  /\ isConnected (disconnect w).1 = false
  /\ timers (disconnect w).1 = timers w
  /\ waiting (disconnect w).1 = waiting w
  /\ reconnectAttempts (this (disconnect w).1) = reconnectAttempts (this w)
  /\ (forall s k, ws (this w) = Some s -> sockets w !! s = Some k ->
        sockets (disconnect w).1 !! s = Some (WebSocket_close k)
        /\ (disconnect w).2 = [WsClose s])
  /\ (forall t tm, timers w !! t = Some tm -> pending tm = true ->
        exists w2 e2,
          step (disconnect w).1 (TimerFires t) = Some (w2, e2)
          /\ In (NewWebSocket ("ws://localhost:8000/ws/job/" +:+ jobId (this w))) e2)
  /\ (forall s k ev,
        ws (this w) = Some s -> sockets w !! s = Some k ->
        readyState k <> CLOSED ->
        reconnectAttempts (this w) < maxReconnectAttempts (this w) ->
        exists w2 e2,
          step (disconnect w).1 (EvClose s ev) = Some (w2, e2)
          /\ scheduled e2 = [reconnectInterval (this w)]
          /\ timers w2 = timers w ++ [{| delay := reconnectInterval (this w);
                                         captured := handlers k; pending := true |}]).
Proof.
  assert (Htm : timers (disconnect w).1 = timers w)
    by (unfold disconnect; destruct (ws (this w)); reflexivity).
  assert (Hws : ws (this (disconnect w).1) = None)
    by (unfold disconnect; destruct (ws (this w)) eqn:E; [reflexivity | exact E]).
  assert (Hjob : jobId (this (disconnect w).1) = jobId (this w))
    by (unfold disconnect; destruct (ws (this w)); reflexivity).
  split; [exact Hws|]. split; [unfold isConnected; by rewrite Hws|].
  split; [exact Htm|]. split; [unfold waiting; by rewrite Htm|].
  split; [|split; [|split]].
  - unfold disconnect. destruct (ws (this w)); reflexivity.
  - intros s k Hs Hk. unfold disconnect. rewrite Hs. cbn.
    split; [|reflexivity]. by rewrite list_lookup_alter_eq, Hk.
  - intros t tm Ht Hp. rewrite <- Htm in Ht.
    destruct (step_timer _ _ _ Ht Hp) as (w2 & e2 & Hs & Hin & _).
    exists w2, e2. split; [exact Hs|]. by rewrite <- Hjob.
  - intros s k ev Hs Hk Hst Hlt.
    assert (Hk' : sockets (disconnect w).1 !! s = Some (WebSocket_close k))
      by (unfold disconnect; rewrite Hs; cbn; by rewrite list_lookup_alter_eq, Hk).
    assert (Hst' : readyState (WebSocket_close k) <> CLOSED)
      by (unfold WebSocket_close; destruct (readyState k) eqn:E; cbn; congruence).
    rewrite (step_close _ _ _ ev Hk' Hst').
    eexists _, _. split; [apply f_equal, surjective_pairing|].
    assert (Hthis : this (disconnect w).1 = set_ws None (this w))
      by (unfold disconnect; by rewrite Hs).
    unfold onclose. rewrite attemptReconnect_below by (cbn; rewrite Hthis; cbn; lia).
    cbn. rewrite Hthis, Htm. cbn. split; [reflexivity|].
    unfold WebSocket_close. by destruct (readyState k).
Qed.

(** Where error signals come from, exactly: in every step the signal is
    delivered if and only if the step is one of the three that
    [signal_source] lists. *)
Lemma error_signal_exact (w : World) i w' e :
  step w i = Some (w', e) ->
  error_signal w e w' = signal_source WebSocket_throws w i.
Proof.
  intros Hs. destruct i; cbn in Hs.
  - unfold connect in Hs. cbn [signal_source].
    destruct (WebSocket_throws _) eqn:Hthrow; simplify_eq; cbn.
    + rewrite list_lookup_middle by reflexivity.
      by rewrite (lookup_ge_None_2 (promises w) (length (promises w))) by lia.
    + reflexivity.
  - unfold disconnect in Hs. destruct (ws (this w)); simplify_eq; reflexivity.
  - unfold onopen in Hs. repeat case_match; simplify_eq; reflexivity.
  - unfold onmessage in Hs. repeat case_match; simplify_eq; reflexivity.
  - cbn [signal_source]. destruct (sockets w !! s) as [k|]; [|discriminate].
    assert (Hon : onerror s k w = (w', e)) by (destruct (readyState k); congruence).
    clear Hs. unfold onerror in Hon.
    destruct (onError (handlers k)) as [f|].
    + destruct (f (caller w)) as [c []]; simplify_eq; reflexivity.
    + simplify_eq. cbn. unfold settle.
      destruct (promises w !! executor k) as [[[] []]|] eqn:Hp; cbn; rewrite ?Hp;
        try reflexivity.
      all: rewrite list_lookup_insert_eq by (by eapply lookup_lt_Some);
        reflexivity.
  - unfold onclose, attemptReconnect in Hs. repeat case_match; simplify_eq; reflexivity.
  - unfold timeout_callback, connect in Hs. repeat case_match; simplify_eq; cbn;
      try reflexivity.
    by rewrite list_lookup_middle by reflexivity.
Qed.

(** C3, as the code has it.  When a socket closes while the counter has
    reached the maximum the client stops retrying: the step logs the
    closure and does nothing else, the instance, the timers, the promises
    and the caller's state stay as they are, and nothing is scheduled
    afterwards as long as no open event resets the counter.  There is no
    terminal error: in every step an error signal is delivered if and only
    if the step is an error event of a socket connected with [onError], an
    error event of a socket connected without it whose promise is pending
    and uncaught, or a call of [connect] by the caller whose constructor
    throws; the value of the counter plays no part in that; and every error
    event of a socket connected with [onError] calls it on the caller's
    state. *)
Theorem exhausted_client_stops_retrying (w : World) i w' e ins w2 e2 :
  exhausted w i = true ->
  step w i = Some (w', e) ->
  no_open ins = true ->
  run w' ins = Some (w2, e2) ->
  e = [ConsoleLog ("WebSocket closed for job " +:+ jobId (this w))]
  /\ error_signal w e w' = false
  /\ scheduled e = []
  /\ attempts_connection e = false
  /\ this w' = this w /\ timers w' = timers w
  /\ promises w' = promises w /\ caller w' = caller w
  /\ scheduled e2 = []
  /\ reconnectAttempts (this w2) = reconnectAttempts (this w)
  /\ (forall (w0 : World) i0 w0' e0,
        step w0 i0 = Some (w0', e0) ->
        error_signal w0 e0 w0' = signal_source WebSocket_throws w0 i0)
  /\ (forall (w0 : World) i0 n,
        signal_source WebSocket_throws
          (set_this (set_reconnectAttempts n (this w0)) w0) i0
        = signal_source WebSocket_throws w0 i0)
  /\ (forall (w0 : World) s k f w0' e0,
        sockets w0 !! s = Some k ->
        onError (handlers k) = Some f ->
        step w0 (EvError s) = Some (w0', e0) ->
        In (CallOnError s) e0
        /\ caller w0' = (f (caller w0)).1
        /\ error_signal w0 e0 w0' = true).
Proof.
  intros Hex Hs Hno Hrun.
  assert (Hcall : forall (w0 : World) s k f w0' e0,
        sockets w0 !! s = Some k ->
        onError (handlers k) = Some f ->
        step w0 (EvError s) = Some (w0', e0) ->
        In (CallOnError s) e0
        /\ caller w0' = (f (caller w0)).1
        /\ error_signal w0 e0 w0' = true).
  { intros w0 s k f w0' e0 Hk Hf Hst. cbn in Hst. rewrite Hk in Hst.
    assert (Hon : onerror s k w0 = (w0', e0)) by (destruct (readyState k); congruence).
    unfold onerror in Hon. rewrite Hf in Hon.
    destruct (f (caller w0)) as [c []]; simplify_eq; cbn.
    - split; [auto|]. split; [|reflexivity].
      unfold settle. cbn. by repeat case_match.
    - split; [auto|]. split; reflexivity. }
  assert (Hcounter : forall (w0 : World) i0 n,
        signal_source WebSocket_throws
          (set_this (set_reconnectAttempts n (this w0)) w0) i0
        = signal_source WebSocket_throws w0 i0).
  { intros w0 [] n; reflexivity. }
  destruct i; try discriminate Hex. cbn in Hex.
  apply negb_true_iff, Nat.ltb_ge in Hex.
  destruct (step_config _ _ _ _ Hs) as (_ & Hmax & _).
  cbn in Hs. destruct (sockets w !! s) as [k|]; [|discriminate].
  unfold onclose in Hs.
  rewrite attemptReconnect_exhausted in Hs by exact Hex.
  destruct (readyState k); simplify_eq; cbn in *.
  all: destruct (run_accounting _ _ _ _ Hrun) as (_ & _ & Hc);
    destruct (Hc Hno) as [Heq Hle]; cbn in Heq, Hle.
  all: assert (Hnil : scheduled e2 = [])
      by (destruct (scheduled e2) eqn:E; [reflexivity|];
          specialize (Hle ltac:(discriminate)); cbn in Heq; lia).
  all: rewrite Hnil in Heq; cbn in Heq.
  all: split; [reflexivity|]; split; [reflexivity|]; split; [reflexivity|];
    split; [reflexivity|]; split; [reflexivity|]; split; [reflexivity|];
    split; [reflexivity|]; split; [reflexivity|]; split; [exact Hnil|];
    split; [lia|]; split; [apply error_signal_exact|];
    split; [exact Hcounter | exact Hcall].
Qed.

End Facts.

(** *** The scenarios *)

Import Demo.

Local Abbreviation step := (Api.step parse never_throws).
Local Abbreviation run := (Api.run parse never_throws).
Local Abbreviation reachable := (Api.reachable (Caller := nat * nat) parse never_throws).

Lemma after_reachable ins :
  is_Some (run start ins) -> reachable (after ins).
Proof.
  unfold after. destruct (run start ins) as [[w e]|] eqn:H.
  - intros _. eapply reachable_run; [apply reachable_fresh | exact H].
  - intros [x Hx]. discriminate Hx.
Qed.

Lemma open_resets_reconnectAttempts_witness :
  reconnectAttempts (this (after (until_backoff ++ [TimerFires 0]))) = 1
  /\ exists w' e,
       step (after (until_backoff ++ [TimerFires 0])) (EvOpen 1) = Some (w', e)
       /\ reconnectAttempts (this w') = 0.
Proof.
  split; [reflexivity|].
  destruct (step (after (until_backoff ++ [TimerFires 0])) (EvOpen 1))
    as [[w' e]|] eqn:Hs; [|vm_compute in Hs; discriminate Hs].
  exists w', e. split; [reflexivity|].
  exact (open_resets_reconnectAttempts parse never_throws _ _ _ _ Hs).
Defined.

Lemma disconnect_idempotent_witness :
  ws (this (disconnect (after until_open)).1) = None
  /\ disconnect (disconnect (after until_open)).1 = ((disconnect (after until_open)).1, [])
  /\ ws (this start) = None
  /\ disconnect start = (start, []).
Proof.
  destruct (disconnect_idempotent parse never_throws (disconnect (after until_open)).1)
    as (Hnoop & _).
  destruct (disconnect_idempotent parse never_throws start) as (Hnoop' & _).
  split; [reflexivity|]. split; [exact (proj1 (Hnoop eq_refl))|].
  split; [reflexivity | exact (proj1 (Hnoop' eq_refl))].
Defined.

Lemma at_most_five_reconnects_per_streak_witness :
  reachable (after until_open)
  /\ no_open (failures ++ [EvClose 5 dropped]) = true
  /\ exists w' e,
       run (after until_open) (failures ++ [EvClose 5 dropped]) = Some (w', e)
       /\ scheduled e = [3000; 3000; 3000; 3000; 3000]
       /\ reconnectAttempts (this w') = 5
       /\ length (scheduled e) <= 5.
Proof.
  assert (Hr : reachable (after until_open)).
  { apply after_reachable. vm_compute. eexists. reflexivity. }
  split; [exact Hr|]. split; [reflexivity|].
  destruct (run (after until_open) (failures ++ [EvClose 5 dropped]))
    as [[w' e]|] eqn:Hrun; [|vm_compute in Hrun; discriminate Hrun].
  exists w', e. split; [reflexivity|].
  pose proof (at_most_five_reconnects_per_streak parse never_throws
                (after until_open) (failures ++ [EvClose 5 dropped]) w' e
                Hr eq_refl Hrun) as (_ & _ & _ & Hle & _).
  vm_compute in Hrun. injection Hrun as <- <-.
  repeat split. exact Hle.
Defined.

Lemma malformed_dropped_wellformed_in_order_witness :
  parse "oops" = None
  /\ exists w1 e1 w2 e2,
       step (after until_open) (EvMessage 0 "oops") = Some (w1, e1)
       /\ run w1 [EvMessage 0 "{a}"; EvMessage 0 "nope"; EvMessage 0 "{b}"] = Some (w2, e2)
       /\ w1 = after until_open
       /\ onMessage_calls e1 = []
       /\ onMessage_calls e2 = [(0, "{a}"); (0, "{b}")]
       /\ caller (after until_open) = (0, 0)
       /\ caller w2 = (2, 0).
Proof.
  split; [reflexivity|].
  destruct (step (after until_open) (EvMessage 0 "oops"))
    as [[w1 e1]|] eqn:Hs; [|vm_compute in Hs; discriminate Hs].
  destruct (run w1 [EvMessage 0 "{a}"; EvMessage 0 "nope"; EvMessage 0 "{b}"])
    as [[w2 e2]|] eqn:Hrun;
    [|vm_compute in Hs; injection Hs as <- <-; vm_compute in Hrun; discriminate Hrun].
  exists w1, e1, w2, e2.
  destruct (malformed_dropped_wellformed_in_order parse never_throws
              (after until_open) 0 "oops" w1 e1 _ w2 e2 eq_refl Hs Hrun)
    as (Hw & _ & Hc1 & _ & _ & Hc2 & (k & Hk & Hfold) & _).
  assert (Hall : run (after until_open)
                   (EvMessage 0 <$> ("oops" :: ["{a}"; "nope"; "{b}"])) = Some (w2, e1 ++ e2)).
  { cbn [fmap list_fmap Api.run]. rewrite Hs. cbn [fmap list_fmap Api.run] in Hrun.
    by rewrite Hrun. }
  destruct (Hfold _ _ _ Hall) as (Hcaller & _).
  assert (Hview : handlers k = view).
  { rewrite Hw in Hk. vm_compute in Hk. by injection Hk as <-. }
  rewrite Hview in Hcaller.
  repeat split; assumption.
Defined.


Lemma close_always_schedules_reconnect_witness :
  reachable (after until_completed)
  /\ reconnectAttempts (this (after until_completed)) < 5
  /\ exists w' e,
       step (after until_completed) (EvClose 0 normal) = Some (w', e)
       /\ scheduled e = [3000]
       /\ exists w'' e'',
            step w' (TimerFires 0) = Some (w'', e'')
            /\ In (NewWebSocket "ws://localhost:8000/ws/job/J1") e''.
Proof.
  assert (Hr : reachable (after until_completed)).
  { apply after_reachable. vm_compute. eexists. reflexivity. }
  assert (Hlt : reconnectAttempts (this (after until_completed)) < 5).
  { vm_compute. lia. }
  split; [exact Hr|]. split; [exact Hlt|].
  destruct (close_always_schedules_reconnect parse never_throws
              (after until_completed) 0
              {| url := "ws://localhost:8000/ws/job/J1"; readyState := OPEN;
                 handlers := view; executor := 0 |}
              normal Hr eq_refl ltac:(discriminate) Hlt)
    as (w' & e & _ & Hs & Hsch & _ & _ & w'' & e'' & Hs' & Hin).
  exists w', e. repeat split; [exact Hs | exact Hsch|].
  exists w'', e''. split; [exact Hs' | exact Hin].
Defined.

Lemma disconnect_cancels_nothing_witness :
  timers (after until_backoff) !! 0
    = Some {| delay := 3000; captured := view; pending := true |}
  /\ timers (disconnect (after until_backoff)).1 = timers (after until_backoff)
  /\ waiting (disconnect (after until_backoff)).1 = 1
  /\ exists w2 e2,
       step (disconnect (after until_backoff)).1 (TimerFires 0) = Some (w2, e2)
       /\ In (NewWebSocket "ws://localhost:8000/ws/job/J1") e2.
Proof.
  destruct (disconnect_cancels_nothing parse never_throws (after until_backoff))
    as (_ & _ & Htm & Hwait & _ & _ & Hfire & _).
  split; [reflexivity|]. split; [exact Htm|]. split; [exact Hwait|].
  exact (Hfire 0 {| delay := 3000; captured := view; pending := true |}
           eq_refl eq_refl).
Defined.

(** C1.  The code at the failing inputs.  First: the connection drops,
    the reconnect timer is waiting, the caller disconnects; the timer
    fires all the same, the instance calls [new WebSocket] again and is
    connected once the socket opens.  Second: the caller disconnects
    while the connection is open; the close event that follows schedules a
    reconnect, the timer fires and the instance is connected again.  In
    both runs the caller never calls [connect] after [disconnect()], so
    the code does not do what the specification asks of it. *)
Theorem disconnect_then_reconnects :
  (reachable (after until_backoff)
   /\ waiting (after until_backoff) = 1
   /\ (disconnect (after until_backoff)).2 = [WsClose 0]
   /\ isConnected (disconnect (after until_backoff)).1 = false
   /\ exists w',
        run (disconnect (after until_backoff)).1 [TimerFires 0; EvOpen 1]
          = Some (w', [NewWebSocket "ws://localhost:8000/ws/job/J1";
                       ConsoleLog "WebSocket connected for job J1";
                       Resolve 1])
        /\ isConnected w' = true)
  /\ (reachable (after until_open)
      /\ isConnected (after until_open) = true
      /\ (disconnect (after until_open)).2 = [WsClose 0]
      /\ isConnected (disconnect (after until_open)).1 = false
      /\ exists w',
           run (disconnect (after until_open)).1
               [EvClose 0 normal; TimerFires 0; EvOpen 1]
             = Some (w', [ConsoleLog "WebSocket closed for job J1";
                          ConsoleLog "Attempting to reconnect... (1/5)";
                          SetTimeout 0 3000;
                          NewWebSocket "ws://localhost:8000/ws/job/J1";
                          ConsoleLog "WebSocket connected for job J1";
                          Resolve 1])
           /\ isConnected w' = true)
  /\ ~ disconnect_stops_reconnecting (Caller := nat * nat) parse never_throws.
Proof.
  assert (Hr : reachable (after until_backoff)).
  { apply after_reachable. vm_compute. eexists. reflexivity. }
  assert (Hr' : reachable (after until_open)).
  { apply after_reachable. vm_compute. eexists. reflexivity. }
  split; [|split].
  - split; [exact Hr|]. do 3 (split; [reflexivity|]).
    eexists. split; [vm_compute; reflexivity | reflexivity].
  - split; [exact Hr'|]. do 3 (split; [reflexivity|]).
    eexists. split; [vm_compute; reflexivity | reflexivity].
  - intros H.
    destruct (run (disconnect (after until_backoff)).1 [TimerFires 0])
      as [[w' e]|] eqn:Hrun; [|vm_compute in Hrun; discriminate Hrun].
    assert (Hw : 0 < waiting (after until_backoff)) by (change (0 < 1); lia).
    specialize (H (after until_backoff) [TimerFires 0] w' e Hr
                  (or_introl Hw) eq_refl Hrun).
    vm_compute in Hrun. injection Hrun as <- <-.
    vm_compute in H. discriminate H.
Qed.

Lemma exhausted_client_stops_retrying_witness :
  exhausted (after until_last_failure) (EvClose 5 dropped) = true
  /\ exists w' e w2 e2,
       step (after until_last_failure) (EvClose 5 dropped) = Some (w', e)
       /\ run w' [CallDisconnect; CallConnect view; EvError 6; EvClose 6 dropped] = Some (w2, e2)
       /\ e = [ConsoleLog "WebSocket closed for job J1"]
       /\ scheduled e = [] /\ scheduled e2 = []
       /\ error_signal (after until_last_failure) e w'
          = signal_source never_throws (after until_last_failure) (EvClose 5 dropped).
Proof.
  split; [reflexivity|].
  destruct (step (after until_last_failure) (EvClose 5 dropped))
    as [[w' e]|] eqn:Hs; [|vm_compute in Hs; discriminate Hs].
  destruct (run w' [CallDisconnect; CallConnect view; EvError 6; EvClose 6 dropped]) as [[w2 e2]|] eqn:Hrun;
    [|vm_compute in Hs; injection Hs as <- <-; vm_compute in Hrun; discriminate Hrun].
  exists w', e, w2, e2.
  destruct (exhausted_client_stops_retrying parse never_throws
              (after until_last_failure) (EvClose 5 dropped) w' e
              [CallDisconnect; CallConnect view; EvError 6; EvClose 6 dropped] w2 e2 eq_refl Hs eq_refl Hrun)
    as (He & _ & Hsch & _ & _ & _ & _ & _ & Hsch2 & _ & Hexact & _).
  split; [reflexivity|]. split; [exact Hrun|]. split; [exact He|].
  split; [exact Hsch|]. split; [exact Hsch2|].
  exact (Hexact _ _ _ _ Hs).
Defined.

(** C3, refuted as stated, in both halves.  When: a caller that connects
    without [onError] goes through the whole streak, from the first
    connection to the close event that finds the attempts exhausted,
    without one error signal in any step.  Exactly then: a caller that
    connects with [onError] is called on the error event of the first
    failed reconnect, with the counter at 1 and four retries to come. *)
Lemma no_terminal_error :
  ~ error_when_exhausted (Caller := nat * nat) parse never_throws
  /\ ~ error_only_when_exhausted (Caller := nat * nat) parse never_throws.
Proof.
  split; intros H.
  - destruct (run (fresh "J1" (0, 0)) Cases.quiet_until_last_failure)
      as [[w e]|] eqn:Hrun; [|vm_compute in Hrun; discriminate Hrun].
    destruct (step w (EvClose 5 dropped)) as [[w' e']|] eqn:Hs;
      [|vm_compute in Hrun; injection Hrun as <- <-;
        vm_compute in Hs; discriminate Hs].
    specialize (H "J1" (0, 0) Cases.quiet_until_last_failure 5 dropped
                  w e w' e' Hrun Hs).
    vm_compute in Hrun. injection Hrun as <- <-.
    specialize (H eq_refl). vm_compute in H. discriminate H.
  - assert (Hr : reachable (after (until_backoff ++ [TimerFires 0]))).
    { apply after_reachable. vm_compute. eexists. reflexivity. }
    destruct (step (after (until_backoff ++ [TimerFires 0])) (EvError 1))
      as [[w' e]|] eqn:Hs; [|vm_compute in Hs; discriminate Hs].
    specialize (H (after (until_backoff ++ [TimerFires 0])) (EvError 1) w' e Hr Hs).
    vm_compute in Hs. injection Hs as <- <-.
    specialize (H eq_refl). vm_compute in H. discriminate H.
Qed.

End ApiFacts.

(* ===================================================================== *)
(** ** More on the client *)
(* ===================================================================== *)

Module ApiExtra.
Import Api ApiFacts.

Section Extra.

Context {Data Caller : Type}.
Variable JSON_parse : string -> option Data.
Variable WebSocket_throws : string -> bool.

Local Abbreviation World := (World Data Caller).
Local Abbreviation Input := (Input Data Caller).
Local Abbreviation Effect := (Effect Data).
Local Abbreviation step := (step JSON_parse WebSocket_throws).
Local Abbreviation run := (run JSON_parse WebSocket_throws).
Local Abbreviation reachable := (reachable JSON_parse WebSocket_throws).
Local Abbreviation connect := (connect (Data := Data) (Caller := Caller) WebSocket_throws).

(** Unfolds a step into the cases of the handler it runs. *)
Ltac step_cases H :=
  cbn in H;
  unfold Api.connect, disconnect, onopen, onmessage, onerror, onclose,
    timeout_callback, Api.connect, attemptReconnect in H;
  repeat case_match; simplify_eq.

(** *** [settle] and the promise store *)

Lemma settle_length p st (w : World) :
  length (promises (settle p st w)) = length (promises w).
Proof.
  unfold settle. repeat case_match; try reflexivity. cbn. apply length_insert.
Qed.

Lemma settle_sockets p st (w : World) : sockets (settle p st w) = sockets w.
Proof. unfold settle. repeat case_match; reflexivity. Qed.

Lemma settle_caller p st (w : World) : caller (settle p st w) = caller w.
Proof. unfold settle. repeat case_match; reflexivity. Qed.

(** A settled promise is not changed by [resolve] or [reject]; a pending
    one keeps its [caught] mark. *)
Lemma settle_keeps q st (w : World) p pr :
  promises w !! p = Some pr ->
  exists pr',
    promises (settle q st w) !! p = Some pr'
    /\ caught pr' = caught pr
    /\ (pstate pr <> Pending -> pr' = pr).
Proof.
  intros Hp. unfold settle.
  destruct (promises w !! q) as [[[] c]|] eqn:Hq; eauto.
  cbn. destruct (decide (p = q)) as [->|Hne].
  - rewrite Hq in Hp. injection Hp as <-.
    exists {| pstate := st; caught := c |}.
    rewrite list_lookup_insert_eq by (by eapply lookup_lt_Some).
    repeat split. cbn. congruence.
  - exists pr. by rewrite list_lookup_insert_ne.
Qed.

Lemma step_promise_kept (w : World) i w' e p pr :
  step w i = Some (w', e) ->
  promises w !! p = Some pr ->
  exists pr',
    promises w' !! p = Some pr'
    /\ caught pr' = caught pr
    /\ (pstate pr <> Pending -> pr' = pr).
Proof.
  intros Hs Hp.
  assert (Happ : forall x, (promises w ++ [x]) !! p = Some pr)
    by (intros x; rewrite lookup_app_l; [exact Hp | by eapply lookup_lt_Some]).
  destruct i; step_cases Hs; cbn; eauto;
    try (apply settle_keeps; exact Hp).
Qed.

(** X1. A promise made by [connect] is settled at most once: in any run,
    a promise that is fulfilled or rejected stays exactly as it is, no
    promise is ever dropped, and whether a rejection is swallowed never
    changes. *)
Theorem promise_settled_once ins : forall (w : World) w' e p pr,
  run w ins = Some (w', e) ->
  promises w !! p = Some pr ->
  exists pr',
    promises w' !! p = Some pr'
    /\ caught pr' = caught pr
    /\ (pstate pr <> Pending -> pr' = pr).
Proof.
  induction ins as [|i ins IH]; intros w w' e p pr H Hp; cbn [Api.run] in H.
  - injection H as <- _. eauto.
  - destruct (step w i) as [[wa ea]|] eqn:Hs; [|discriminate].
    destruct (run wa ins) as [[wb eb]|] eqn:Hb; [|discriminate].
    injection H as <- _.
    destruct (step_promise_kept _ _ _ _ _ _ Hs Hp) as (pa & Hpa & Hca & Hka).
    destruct (IH _ _ _ _ _ Hb Hpa) as (pb & Hpb & Hcb & Hkb).
    exists pb. split; [exact Hpb|]. split; [congruence|].
    intros Hne. specialize (Hka Hne). subst pa. exact (Hkb Hne).
Qed.

(** *** Sockets *)

(** One step never removes a socket and never changes what its handlers
    close over; the ready state only moves forward. *)
Lemma step_socket_kept (w : World) i w' e s k :
  step w i = Some (w', e) ->
  sockets w !! s = Some k ->
  exists k',
    sockets w' !! s = Some k'
    /\ url k' = url k /\ handlers k' = handlers k /\ executor k' = executor k
    /\ rank (readyState k) <= rank (readyState k').
Proof.
  intros Hs Hk.
  assert (Hlt : s < length (sockets w)) by (by eapply lookup_lt_Some).
  assert (Happ : forall x, (sockets w ++ [x]) !! s = Some k)
    by (intros x; by rewrite lookup_app_l).
  assert (Hins : forall s0 k0 st,
    sockets w !! s0 = Some k0 ->
    rank (readyState k0) <= rank st ->
    exists k',
      <[s0 := set_readyState st k0]> (sockets w) !! s = Some k'
      /\ url k' = url k /\ handlers k' = handlers k /\ executor k' = executor k
      /\ rank (readyState k) <= rank (readyState k')).
  { intros s0 k0 st Hk0 Hr. destruct (decide (s0 = s)) as [->|Hne].
    - rewrite list_lookup_insert_eq by exact Hlt. rewrite Hk in Hk0.
      injection Hk0 as <-. eexists. split; [reflexivity|]. by repeat split.
    - rewrite list_lookup_insert_ne by exact Hne. exists k. by repeat split. }
  destruct i; step_cases Hs; cbn; rewrite ?settle_sockets; cbn;
    try (exists k; by repeat split);
    try (eapply Hins; [eassumption|];
         match goal with H : readyState _ = _ |- _ => rewrite H end; cbn; lia).
  (* what is left is [disconnect] with [ws] set *)
  match goal with |- context [alter _ ?n _] => destruct (decide (n = s)) as [->|Hne] end.
  - rewrite list_lookup_alter_eq, Hk. cbn. eexists. split; [reflexivity|].
    unfold WebSocket_close. destruct (readyState k) eqn:E; cbn; rewrite ?E;
      repeat split; cbn; lia.
  - rewrite list_lookup_alter_ne by exact Hne. exists k. by repeat split.
Qed.

(** X2. Sockets are never dropped or rewired: across any run a socket
    keeps its URL, its handlers and its promise, and its ready state only
    advances (connecting, open, closing, closed). *)
Theorem socket_only_advances ins : forall (w : World) w' e s k,
  run w ins = Some (w', e) ->
  sockets w !! s = Some k ->
  exists k',
    sockets w' !! s = Some k'
    /\ url k' = url k /\ handlers k' = handlers k /\ executor k' = executor k
    /\ rank (readyState k) <= rank (readyState k').
Proof.
  induction ins as [|i ins IH]; intros w w' e s k H Hk; cbn [Api.run] in H.
  - injection H as <- _. exists k. by repeat split.
  - destruct (step w i) as [[wa ea]|] eqn:Hs; [|discriminate].
    destruct (run wa ins) as [[wb eb]|] eqn:Hb; [|discriminate].
    injection H as <- _.
    destruct (step_socket_kept _ _ _ _ _ _ Hs Hk) as (ka & Hka & Hu & Hh & Hx & Hr).
    destruct (IH _ _ _ _ _ Hb Hka) as (kb & Hkb & Hu' & Hh' & Hx' & Hr').
    exists kb. repeat split; try congruence. lia.
Qed.

(** The messages of a socket that is closing or closed are never handed
    to the handler. *)
Lemma run_no_calls_after_closing ins : forall (w : World) w' e s k,
  run w ins = Some (w', e) ->
  sockets w !! s = Some k ->
  2 <= rank (readyState k) ->
  forall d, ~ In (s, d) (onMessage_calls e).
Proof.
  induction ins as [|i ins IH]; intros w w' e s k H Hk Hr d; cbn [Api.run] in H.
  - injection H as _ <-. intros [].
  - destruct (step w i) as [[wa ea]|] eqn:Hs; [|discriminate].
    destruct (run wa ins) as [[wb eb]|] eqn:Hb; [|discriminate].
    injection H as _ <-.
    destruct (step_socket_kept _ _ _ _ _ _ Hs Hk) as (ka & Hka & _ & _ & _ & Hra).
    rewrite onMessage_calls_app, in_app_iff. intros [Hin|Hin].
    + rewrite (step_onMessage_calls _ _ _ _ _ _ Hs) in Hin.
      destruct i; cbn in Hin; try (destruct Hin; fail).
      destruct (JSON_parse payload) as [d'|]; cbn in Hin; [|destruct Hin].
      destruct Hin as [Heq|[]]. injection Heq as -> ->.
      cbn in Hs. rewrite Hk in Hs. destruct (readyState k); cbn in Hr; try discriminate; lia.
    + exact (IH _ _ _ _ _ Hb Hka ltac:(lia) d Hin).
Qed.

(** X3. Once [disconnect()] has closed the socket [ws] referred to, the
    caller's handler is never again called for a message of that socket,
    whatever happens afterwards. *)
Theorem no_message_after_disconnect (w : World) s k ins w' e :
  ws (this w) = Some s ->
  sockets w !! s = Some k ->
  run (disconnect w).1 ins = Some (w', e) ->
  forall d, ~ In (s, d) (onMessage_calls e).
Proof.
  intros Hws Hk Hrun.
  eapply run_no_calls_after_closing; [exact Hrun| |].
  - unfold disconnect. rewrite Hws. cbn. by rewrite list_lookup_alter_eq, Hk.
  - unfold WebSocket_close. destruct (readyState k) eqn:E; cbn; rewrite ?E; cbn; lia.
Qed.

(** *** References stay valid *)

Lemma job_url_inj job1 job2 : job_url job1 = job_url job2 -> job1 = job2.
Proof. unfold job_url. cbn. intros H. by simplify_eq. Qed.

Lemma consistent_alt (w : World) :
  consistent w <->
  (forall s, ws (this w) = Some s -> S s = length (sockets w))
  /\ Forall (fun k => url k = job_url (jobId (this w))
                      /\ executor k < length (promises w)) (sockets w).
Proof.
  unfold consistent. destruct (ws (this w)) as [s|]; split; intros [H1 H2];
    (split; [|exact H2]); try done.
  - by intros ? [= <-].
  - by apply H1.
Qed.

Lemma step_consistent (w : World) i w' e :
  step w i = Some (w', e) -> consistent w -> consistent w'.
Proof.
  intros Hs Hc. apply consistent_alt in Hc as [Hws Hall]. apply consistent_alt.
  destruct (step_config _ _ _ _ _ _ Hs) as (Hjob & _ & _). rewrite Hjob.
  assert (Hgrow : forall x : Promise,
    Forall (fun k => url k = job_url (jobId (this w))
                     /\ executor k < length (promises w ++ [x])) (sockets w)).
  { intros x. eapply Forall_impl; [exact Hall|]. cbn. intros k [Hu Hx].
    split; [exact Hu|]. rewrite length_app. cbn. lia. }
  assert (Hins : forall s0 k0 st,
    sockets w !! s0 = Some k0 ->
    Forall (fun k => url k = job_url (jobId (this w))
                     /\ executor k < length (promises w))
      (<[s0 := set_readyState st k0]> (sockets w))).
  { intros s0 k0 st Hk0. apply Forall_insert; [exact Hall|]. cbn.
    exact (Forall_lookup_1 _ _ _ _ Hall Hk0). }
  assert (Hnew : forall cb b,
    Forall (fun k => url k = job_url (jobId (this w))
                     /\ executor k < length (promises w ++ [b]))
      (sockets w ++ [{| url := "ws://localhost:8000/ws/job/" +:+ jobId (this w);
                        readyState := CONNECTING; handlers := cb;
                        executor := length (promises w) |}])).
  { intros cb b. apply Forall_app. split; [apply Hgrow|].
    constructor; [|constructor]. split; [reflexivity|].
    cbn. rewrite length_app. cbn. lia. }
  destruct i; step_cases Hs;
    rewrite ?settle_this, ?settle_sockets, ?settle_length; cbn;
    (split;
     [ intros s0 Hs0; cbn in Hs0; simplify_eq;
       rewrite ?length_app, ?length_insert; cbn;
       first [lia | by apply Hws]
     | first [ exact Hall
             | apply Hgrow
             | apply Hnew
             | eapply Hins; eassumption
             | apply Forall_alter; [exact Hall|];
               intros k _ [Hu Hx]; unfold WebSocket_close;
               by destruct (readyState k) ] ]).
Qed.

(** X4. In every reachable state the references of the instance are
    valid: [ws], when it is not null, is the socket made by the latest
    successful [connect]; every socket was opened on the endpoint of the
    instance's job; and the promise each socket's handlers settle exists. *)
Theorem reachable_consistent (w : World) :
  reachable w ->
  consistent w
  /\ (forall s, ws (this w) = Some s -> S s = length (sockets w)
        /\ exists k, sockets w !! s = Some k)
  /\ (forall s k, sockets w !! s = Some k ->
        url k = job_url (jobId (this w))
        /\ is_Some (promises w !! executor k)).
Proof.
  intros Hr.
  assert (Hc : consistent w).
  { induction Hr as [job c|w i w' e _ IH Hs]; [split; [exact I|constructor]|].
    eapply step_consistent; eauto. }
  split; [exact Hc|]. destruct Hc as [Hws Hall]. split.
  - intros s Hs. rewrite Hs in Hws. split; [exact Hws|].
    apply lookup_lt_is_Some. lia.
  - intros s k Hk. destruct (Forall_lookup_1 _ _ _ _ Hall Hk) as [Hu Hx].
    split; [exact Hu|]. by apply lookup_lt_is_Some.
Qed.

(** *** Where connections go *)

Lemma urls_app (e1 e2 : list Effect) : urls (e1 ++ e2) = urls e1 ++ urls e2.
Proof. apply omap_app. Qed.

Lemma step_urls (w : World) i w' e :
  step w i = Some (w', e) ->
  Forall (fun u => u = job_url (jobId (this w))) (urls e).
Proof.
  intros Hs. destruct i; step_cases Hs; cbn; repeat constructor.
Qed.

(** X5. An instance only ever connects to the endpoint of its own job:
    in any run every call of the constructor gets
    [ws://localhost:8000/ws/job/] followed by the job id the instance was
    made with, and two job ids never share an endpoint. *)
Theorem connects_to_own_job_only ins : forall (w : World) w' e,
  run w ins = Some (w', e) ->
  Forall (fun u => u = job_url (jobId (this w))) (urls e)
  /\ jobId (this w') = jobId (this w)
  /\ forall job, job_url job = job_url (jobId (this w)) -> job = jobId (this w).
Proof.
  induction ins as [|i ins IH]; intros w w' e H; cbn [Api.run] in H.
  - injection H as <- <-. split; [apply Forall_nil_2|]. split; [reflexivity|intros job; apply job_url_inj].
  - destruct (step w i) as [[wa ea]|] eqn:Hs; [|discriminate].
    destruct (run wa ins) as [[wb eb]|] eqn:Hb; [|discriminate].
    injection H as <- <-.
    destruct (step_config _ _ _ _ _ _ Hs) as (Hjob & _ & _).
    destruct (IH _ _ _ Hb) as (Hu & Hj & _). rewrite Hjob in Hu, Hj.
    split; [|split; [exact Hj|intros job; apply job_url_inj]].
    rewrite urls_app. apply Forall_app. split; [|exact Hu].
    exact (step_urls _ _ _ _ Hs).
Qed.

(** *** Exceptions *)

(** X6. The only exception that ever leaves a handler of the instance is
    one thrown by the caller's own [onError]: then the error event's
    handler stops before [reject], so the promise is left as it was and
    only the caller's state may have changed. *)
Theorem uncaught_only_from_onError (w : World) i w' e :
  step w i = Some (w', e) ->
  In Uncaught e ->
  exists s k f,
    i = EvError s
    /\ sockets w !! s = Some k
    /\ onError (handlers k) = Some f
    /\ f (caller w) = (caller w', Throws)
    /\ promises w' = promises w
    /\ this w' = this w /\ sockets w' = sockets w /\ timers w' = timers w
    /\ ~ In (Reject (executor k)) e.
Proof.
  intros Hs Hin.
  destruct i; step_cases Hs; cbn in Hin;
    repeat (destruct Hin as [Hin|Hin]; [discriminate Hin|]);
    try (destruct Hin; fail);
    try (destruct Hin as [Hin|Hin]; [|destruct Hin]).
  all: eexists _, _, _; repeat split; try eassumption; try reflexivity.
  all: cbn; intros HR; repeat (destruct HR as [HR|HR]; [discriminate HR|]);
    exact HR.
Qed.

(** *** Whose handlers run *)

Lemma step_provenance cbs (w : World) i w' e :
  step w i = Some (w', e) ->
  Forall (fun k => In (handlers k) cbs) (sockets w) ->
  Forall (fun tm => In (captured tm) cbs) (timers w) ->
  Forall (fun k => In (handlers k) (cbs ++ connect_args [i])) (sockets w')
  /\ Forall (fun tm => In (captured tm) (cbs ++ connect_args [i])) (timers w').
Proof.
  intros Hs Hso Hti.
  assert (Hso' : forall l, Forall (fun k => In (handlers k) (cbs ++ l)) (sockets w)).
  { intros l. eapply Forall_impl; [exact Hso|]. cbn. intros k Hk.
    apply in_app_iff. by left. }
  assert (Hti' : forall l, Forall (fun tm => In (captured tm) (cbs ++ l)) (timers w)).
  { intros l. eapply Forall_impl; [exact Hti|]. cbn. intros k Hk.
    apply in_app_iff. by left. }
  assert (Hins : forall l s0 k0 st,
    sockets w !! s0 = Some k0 ->
    Forall (fun k => In (handlers k) (cbs ++ l))
      (<[s0 := set_readyState st k0]> (sockets w))).
  { intros l s0 k0 st Hk0. apply Forall_insert; [apply Hso'|]. cbn.
    exact (Forall_lookup_1 _ _ _ _ (Hso' l) Hk0). }
  assert (Hfire : forall l t tm,
    timers w !! t = Some tm ->
    Forall (fun tm => In (captured tm) (cbs ++ l))
      (<[t := {| delay := delay tm; captured := captured tm; pending := false |}]> (timers w))).
  { intros l t tm Ht. apply Forall_insert; [apply Hti'|]. cbn.
    exact (Forall_lookup_1 _ _ _ _ (Hti' l) Ht). }
  assert (Hsched : forall l s0 k0 ms,
    sockets w !! s0 = Some k0 ->
    Forall (fun tm => In (captured tm) (cbs ++ l))
      (timers w ++ [{| delay := ms; captured := handlers k0; pending := true |}])).
  { intros l s0 k0 ms Hk0. apply Forall_app. split; [apply Hti'|].
    constructor; [|constructor]. cbn.
    exact (Forall_lookup_1 _ _ _ _ (Hso' l) Hk0). }
  assert (Hretry : forall l t tm u p,
    timers w !! t = Some tm ->
    Forall (fun k => In (handlers k) (cbs ++ l))
      (sockets w ++ [{| url := u; readyState := CONNECTING;
                        handlers := captured tm; executor := p |}])).
  { intros l t tm u p Ht. apply Forall_app. split; [apply Hso'|].
    constructor; [|constructor]. cbn.
    exact (Forall_lookup_1 _ _ _ _ (Hti' l) Ht). }
  destruct i; step_cases Hs;
    rewrite ?settle_sockets, ?settle_timers; cbn;
    (split;
     [ first [ apply Hso'
             | eapply Hins; eassumption
             | eapply Hretry; eassumption
             | apply Forall_app; split; [apply Hso'|];
               constructor; [|constructor]; cbn; apply in_app_iff; right; by left
             | apply Forall_alter; [apply Hso'|];
               intros k _ Hk; unfold WebSocket_close; by destruct (readyState k) ]
     | first [ apply Hti'
             | eapply Hfire; eassumption
             | eapply Hsched; eassumption ] ]).
Qed.

Lemma connect_args_app (l1 l2 : list Input) :
  connect_args (l1 ++ l2) = connect_args l1 ++ connect_args l2.
Proof. apply omap_app. Qed.

Lemma run_provenance ins : forall cbs (w : World) w' e,
  run w ins = Some (w', e) ->
  Forall (fun k => In (handlers k) cbs) (sockets w) ->
  Forall (fun tm => In (captured tm) cbs) (timers w) ->
  Forall (fun k => In (handlers k) (cbs ++ connect_args ins)) (sockets w')
  /\ Forall (fun tm => In (captured tm) (cbs ++ connect_args ins)) (timers w').
Proof.
  induction ins as [|i ins IH]; intros cbs w w' e H Hso Hti; cbn [Api.run] in H.
  - injection H as <- _. cbn. by rewrite app_nil_r.
  - destruct (step w i) as [[wa ea]|] eqn:Hs; [|discriminate].
    destruct (run wa ins) as [[wb eb]|] eqn:Hb; [|discriminate].
    injection H as <- _.
    destruct (step_provenance _ _ _ _ _ Hs Hso Hti) as [Hso1 Hti1].
    destruct (IH _ _ _ _ Hb Hso1 Hti1) as [Hso2 Hti2].
    change (i :: ins) with ([i] ++ ins).
    rewrite connect_args_app, app_assoc. by split.
Qed.

(** X7. The instance never invents or swaps handlers: after any run from
    a new instance, the callbacks every socket delivers to, and the ones
    every reconnect timer will connect with, are callbacks the caller
    passed to [connect] in that run.  With a single [connect] call, every
    socket and every timer carries exactly that call's callbacks. *)
Theorem handlers_come_from_caller job c ins (w' : World) e :
  run (fresh job c) ins = Some (w', e) ->
  Forall (fun k => In (handlers k) (connect_args ins)) (sockets w')
  /\ Forall (fun tm => In (captured tm) (connect_args ins)) (timers w')
  /\ forall cb, connect_args ins = [cb] ->
       Forall (fun k => handlers k = cb) (sockets w')
       /\ Forall (fun tm => captured tm = cb) (timers w').
Proof.
  intros Hrun.
  destruct (run_provenance ins [] _ _ _ Hrun) as [Hso Hti]; [constructor..|].
  cbn in Hso, Hti. split; [exact Hso|]. split; [exact Hti|].
  intros cb Hcb. rewrite Hcb in Hso, Hti.
  split; (eapply Forall_impl; [eassumption|]); cbn; by intros ? [->|[]].
Qed.

(** *** A constructor that throws *)

Lemma run_constructor_throws ins : forall (w : World) w' e,
  WebSocket_throws (job_url (jobId (this w))) = true ->
  sockets w = [] -> timers w = [] -> ws (this w) = None ->
  run w ins = Some (w', e) ->
  sockets w' = [] /\ timers w' = [] /\ ws (this w') = None
  /\ caller w' = caller w
  /\ promises w' = promises w
                     ++ replicate (connect_calls ins) {| pstate := Rejected; caught := false |}
  /\ scheduled e = [] /\ onMessage_calls e = []
  /\ connection_attempts e = connect_calls ins.
Proof.
  induction ins as [|i ins IH]; intros w w' e Hthrow Hso Hti Hws H; cbn [Api.run] in H.
  - injection H as <- <-. cbn. by rewrite app_nil_r.
  - destruct (step w i) as [[wa ea]|] eqn:Hs; [|discriminate].
    destruct (run wa ins) as [[wb eb]|] eqn:Hb; [|discriminate].
    injection H as <- <-.
    assert (Hstep : sockets wa = [] /\ timers wa = [] /\ ws (this wa) = None
                    /\ jobId (this wa) = jobId (this w) /\ caller wa = caller w
                    /\ promises wa = promises w
                         ++ replicate (connect_calls [i]) {| pstate := Rejected; caught := false |}
                    /\ scheduled ea = [] /\ onMessage_calls ea = []
                    /\ connection_attempts ea = connect_calls [i]).
    { unfold job_url in Hthrow.
      destruct i; cbn in Hs; rewrite ?Hso, ?Hti in Hs; try discriminate Hs.
      - unfold Api.connect in Hs. rewrite Hthrow in Hs. injection Hs as <- <-.
        by repeat split.
      - unfold disconnect in Hs. rewrite Hws in Hs. injection Hs as <- <-.
        cbn. by rewrite app_nil_r. }
    destruct Hstep as (Hso1 & Hti1 & Hws1 & Hjob & Hc1 & Hp1 & Hsch1 & Hm1 & Ha1).
    rewrite <- Hjob in Hthrow.
    destruct (IH _ _ _ Hthrow Hso1 Hti1 Hws1 Hb)
      as (Hso2 & Hti2 & Hws2 & Hc2 & Hp2 & Hsch2 & Hm2 & Ha2).
    change (i :: ins) with ([i] ++ ins).
    rewrite scheduled_app, onMessage_calls_app, Hsch1, Hsch2, Hm1, Hm2.
    unfold connection_attempts, connect_calls in *.
    rewrite !List.filter_app, !length_app, replicate_add, Hp2, Hp1, app_assoc.
    repeat split; try assumption; try congruence.
Qed.

(** X8. When the constructor throws for the job's URL the instance can
    never connect: whatever is done with a new instance, no socket is
    ever made, [ws] stays null, [isConnected()] stays false, no reconnect
    is ever scheduled, the handler is never called, and every [connect()]
    of the caller returns a promise that is already rejected. *)
Theorem constructor_throws_never_connects job c ins (w' : World) e :
  WebSocket_throws (job_url job) = true ->
  run (fresh job c) ins = Some (w', e) ->
  sockets w' = [] /\ ws (this w') = None /\ isConnected w' = false
  /\ timers w' = [] /\ scheduled e = [] /\ onMessage_calls e = []
  /\ caller w' = c
  /\ connection_attempts e = connect_calls ins
  /\ promises w' = replicate (connect_calls ins) {| pstate := Rejected; caught := false |}.
Proof.
  intros Hthrow Hrun.
  destruct (run_constructor_throws ins (fresh job c) _ _ Hthrow eq_refl eq_refl eq_refl Hrun)
    as (Hso & Hti & Hws & Hc & Hp & Hsch & Hm & Ha).
  repeat split; try assumption. unfold isConnected. by rewrite Hws.
Qed.

(** *** Reconnecting for ever *)

Lemma run_app (w : World) ins1 ins2 w1 e1 w2 e2 :
  run w ins1 = Some (w1, e1) ->
  run w1 ins2 = Some (w2, e2) ->
  run w (ins1 ++ ins2) = Some (w2, e1 ++ e2).
Proof.
  revert w w1 e1. induction ins1 as [|i ins1 IH]; intros w w1 e1 H1 H2; cbn in *.
  - by injection H1 as <- <-.
  - destruct (step w i) as [[wa ea]|]; [|discriminate].
    destruct (run wa ins1) as [[wb eb]|] eqn:Hb; [|discriminate].
    injection H1 as <- <-. rewrite (IH _ _ _ Hb H2). by rewrite app_assoc.
Qed.

(** A close event below the maximum: one timer more, one attempt more. *)
Lemma close_schedules (w : World) s k ev :
  sockets w !! s = Some k ->
  readyState k <> CLOSED ->
  reconnectAttempts (this w) < maxReconnectAttempts (this w) ->
  exists w1 e1,
    step w (EvClose s ev) = Some (w1, e1)
    /\ scheduled e1 = [reconnectInterval (this w)]
    /\ connection_attempts e1 = 0
    /\ timers w1 = timers w ++ [{| delay := reconnectInterval (this w);
                                   captured := handlers k; pending := true |}]
    /\ length (sockets w1) = length (sockets w)
    /\ jobId (this w1) = jobId (this w)
    /\ maxReconnectAttempts (this w1) = maxReconnectAttempts (this w).
Proof.
  intros Hk Hst Hlt. rewrite (step_close _ _ _ _ _ ev Hk Hst).
  unfold onclose. rewrite attemptReconnect_below by exact Hlt.
  eexists _, _. split; [reflexivity|]. cbn. rewrite length_insert. by repeat split.
Qed.

(** A waiting timer whose constructor call succeeds: one socket more. *)
Lemma timer_connects (w : World) t tm :
  timers w !! t = Some tm ->
  pending tm = true ->
  WebSocket_throws (job_url (jobId (this w))) = false ->
  exists w2 e2,
    step w (TimerFires t) = Some (w2, e2)
    /\ scheduled e2 = []
    /\ connection_attempts e2 = 1
    /\ sockets w2 = sockets w ++ [{| url := job_url (jobId (this w));
                                     readyState := CONNECTING;
                                     handlers := captured tm;
                                     executor := length (promises w) |}]
    /\ ws (this w2) = Some (length (sockets w))
    /\ jobId (this w2) = jobId (this w)
    /\ reconnectAttempts (this w2) = reconnectAttempts (this w)
    /\ maxReconnectAttempts (this w2) = maxReconnectAttempts (this w).
Proof.
  intros Ht Hp Hok. cbn. rewrite Ht, Hp.
  unfold timeout_callback, Api.connect. cbn. unfold job_url in Hok. rewrite Hok.
  eexists _, _. split; [reflexivity|]. by repeat split.
Qed.

(** The open event of a connecting socket: the counter is back at zero. *)
Lemma open_resets (w : World) s k :
  sockets w !! s = Some k ->
  readyState k = CONNECTING ->
  exists w3 e3,
    step w (EvOpen s) = Some (w3, e3)
    /\ scheduled e3 = []
    /\ connection_attempts e3 = 0
    /\ sockets w3 = <[s := set_readyState OPEN k]> (sockets w)
    /\ ws (this w3) = ws (this w)
    /\ jobId (this w3) = jobId (this w)
    /\ reconnectAttempts (this w3) = 0
    /\ maxReconnectAttempts (this w3) = maxReconnectAttempts (this w).
Proof.
  intros Hk Hst. cbn. rewrite Hk, Hst. unfold onopen.
  eexists _, _. split; [reflexivity|].
  rewrite settle_sockets, settle_this. by repeat split.
Qed.

(** One round: a socket closes, the timer fires, the new socket opens. *)
Lemma reconnect_round (w : World) :
  WebSocket_throws (job_url (jobId (this w))) = false ->
  can_reconnect w ->
  exists ins w' e,
    run w ins = Some (w', e)
    /\ no_connect_call ins = true
    /\ length (scheduled e) = 1
    /\ connection_attempts e = 1
    /\ jobId (this w') = jobId (this w)
    /\ isConnected w' = true
    /\ can_reconnect w'.
Proof.
  intros Hok (Hlt & s & k & Hk & Hst).
  destruct (close_schedules w s k {| wasClean := false; code := 1006 |} Hk Hst Hlt)
    as (w1 & e1 & Hs1 & Hsch1 & Hat1 & Hti1 & Hlen1 & Hjob1 & Hmax1).
  destruct (timer_connects w1 (length (timers w))
              {| delay := reconnectInterval (this w); captured := handlers k;
                 pending := true |})
    as (w2 & e2 & Hs2 & Hsch2 & Hat2 & Hso2 & Hws2 & Hjob2 & _ & Hmax2).
  { rewrite Hti1. by apply list_lookup_middle. }
  { reflexivity. }
  { by rewrite Hjob1. }
  destruct (open_resets w2 (length (sockets w1))
              {| url := job_url (jobId (this w1)); readyState := CONNECTING;
                 handlers := handlers k; executor := length (promises w1) |})
    as (w3 & e3 & Hs3 & Hsch3 & Hat3 & Hso3 & Hws3 & Hjob3 & Hcnt3 & Hmax3).
  { rewrite Hso2. by apply list_lookup_middle. }
  { reflexivity. }
  exists [EvClose s {| wasClean := false; code := 1006 |};
          TimerFires (length (timers w)); EvOpen (length (sockets w1))], w3, (e1 ++ e2 ++ e3).
  assert (Hnew : sockets w3 !! length (sockets w1)
                 = Some (set_readyState OPEN
                           {| url := job_url (jobId (this w1)); readyState := CONNECTING;
                              handlers := handlers k; executor := length (promises w1) |})).
  { rewrite Hso3. apply list_lookup_insert_eq. rewrite Hso2, length_app. cbn. lia. }
  split; [cbn [Api.run]; rewrite Hs1, Hs2, Hs3; by rewrite app_nil_r|].
  split; [reflexivity|].
  rewrite !scheduled_app, Hsch1, Hsch2, Hsch3.
  unfold connection_attempts in *. rewrite !List.filter_app, !length_app, Hat1, Hat2, Hat3.
  repeat split; try reflexivity.
  - congruence.
  - unfold isConnected. by rewrite Hws3, Hws2, Hnew.
  - rewrite Hcnt3, Hmax3, Hmax2, Hmax1. lia.
  - exists (length (sockets w1)). eexists. split; [exact Hnew|]. discriminate.
Qed.

(** X9. The bound of five holds per streak only.  As long as the
    constructor accepts the job's URL, from any state in which some socket
    can still close and the counter is below the maximum, the instance
    can be led through any number of reconnects without the caller doing
    anything: for every [n] there is a run of socket and timer events
    alone in which [n] reconnects are scheduled and [n] connection
    attempts are made. *)
Theorem reconnects_are_unbounded (w : World) n :
  WebSocket_throws (job_url (jobId (this w))) = false ->
  can_reconnect w ->
  exists ins w' e,
    run w ins = Some (w', e)
    /\ no_connect_call ins = true
    /\ length (scheduled e) = n
    /\ connection_attempts e = n.
Proof.
  revert w. induction n as [|n IH]; intros w Hok Hcan.
  - exists [], w, []. by repeat split.
  - destruct (reconnect_round w Hok Hcan)
      as (ins1 & w1 & e1 & Hr1 & Hno1 & Hsch1 & Hat1 & Hjob & _ & Hcan1).
    destruct (IH w1 ltac:(by rewrite Hjob) Hcan1)
      as (ins2 & w2 & e2 & Hr2 & Hno2 & Hsch2 & Hat2).
    exists (ins1 ++ ins2), w2, (e1 ++ e2).
    split; [exact (run_app _ _ _ _ _ _ _ Hr1 Hr2)|].
    split; [unfold no_connect_call in *; rewrite forallb_app; by rewrite Hno1, Hno2|].
    rewrite scheduled_app, length_app. unfold connection_attempts in *.
    rewrite List.filter_app, length_app. split; lia.
Qed.

(** *** A rejected [connect()] and a second [connect()] *)



(** X12. [connect()] resolves when its own socket opens.  If the
    constructor accepts the URL, the call makes one socket and a pending
    promise and points [ws] at the socket; the open event of that socket
    fulfils exactly that promise, resets the counter, and from then on
    [isConnected()] is true.  No other promise and no other socket is
    touched. *)
Theorem connect_resolves_on_open (w : World) cb :
  WebSocket_throws (job_url (jobId (this w))) = false ->
  exists w' e,
    run w [CallConnect cb; EvOpen (length (sockets w))] = Some (w', e)
    /\ e = [NewWebSocket (job_url (jobId (this w)));
            ConsoleLog ("WebSocket connected for job " +:+ jobId (this w));
            Resolve (length (promises w))]
    /\ promises w' = promises w ++ [{| pstate := Fulfilled; caught := false |}]
    /\ sockets w' = sockets w ++ [{| url := job_url (jobId (this w)); readyState := OPEN;
                                     handlers := cb; executor := length (promises w) |}]
    /\ ws (this w') = Some (length (sockets w))
    /\ isConnected w' = true
    /\ reconnectAttempts (this w') = 0
    /\ timers w' = timers w.
Proof.
  intros Hok. unfold job_url in *.
  assert (Hlook : forall x : WebSocket Data Caller,
    (sockets w ++ [x]) !! length (sockets w) = Some x)
    by (intros x; by apply list_lookup_middle).
  assert (Hins : forall x y : WebSocket Data Caller,
    <[length (sockets w) := y]> (sockets w ++ [x]) = sockets w ++ [y]).
  { intros x y. rewrite insert_app_r_alt by lia. by rewrite Nat.sub_diag. }
  assert (Hp : forall x y : Promise,
    <[length (promises w) := y]> (promises w ++ [x]) = promises w ++ [y]).
  { intros x y. rewrite insert_app_r_alt by lia. by rewrite Nat.sub_diag. }
  cbn [Api.run Api.step]. unfold Api.connect. rewrite Hok. cbn.
  rewrite Hlook. cbn. unfold onopen, settle. cbn.
  rewrite list_lookup_middle by reflexivity. cbn. rewrite Hins, Hp.
  eexists _, _. split; [reflexivity|]. cbn.
  repeat split. unfold isConnected. cbn. by rewrite Hlook.
Qed.

End Extra.

(** *** The scenarios *)

Import Demo Cases.

Local Abbreviation step := (Api.step parse never_throws).
Local Abbreviation run := (Api.run parse never_throws).
Local Abbreviation World := (Api.World string (nat * nat)).

Lemma promise_settled_once_witness :
  promises (after until_open) !! 0 = Some {| pstate := Fulfilled; caught := false |}
  /\ exists (w' : World) e,
       run (after until_open) (failures ++ [EvClose 5 dropped]) = Some (w', e)
       /\ promises w' !! 0 = Some {| pstate := Fulfilled; caught := false |}.
Proof.
  split; [reflexivity|].
  destruct (run (after until_open) (failures ++ [EvClose 5 dropped]))
    as [[w' e]|] eqn:Hrun; [|vm_compute in Hrun; discriminate Hrun].
  exists w', e. split; [reflexivity|].
  destruct (promise_settled_once parse never_throws _ (after until_open) w' e 0
              {| pstate := Fulfilled; caught := false |} Hrun eq_refl)
    as (pr & Hpr & _ & Hkeep).
  rewrite Hpr. f_equal. apply Hkeep. discriminate.
Defined.

Lemma socket_only_advances_witness :
  exists (w' : World) e k',
    run (after until_open) failures = Some (w', e)
    /\ sockets w' !! 0 = Some k'
    /\ handlers k' = view
    /\ 1 <= rank (readyState k').
Proof.
  destruct (run (after until_open) failures)
    as [[w' e]|] eqn:Hrun; [|vm_compute in Hrun; discriminate Hrun].
  destruct (socket_only_advances parse never_throws _ (after until_open) w' e 0
              {| url := "ws://localhost:8000/ws/job/J1"; readyState := OPEN;
                 handlers := view; executor := 0 |} Hrun eq_refl)
    as (k' & Hk' & _ & Hh & _ & Hr).
  exists w', e, k'. repeat split; assumption.
Defined.

Lemma no_message_after_disconnect_witness :
  ws (this (after until_open)) = Some 0
  /\ exists (w' : World) e,
       run (disconnect (after until_open)).1 [EvClose 0 normal; TimerFires 0; EvOpen 1;
                                              EvMessage 1 "{a}"] = Some (w', e)
       /\ forall d, ~ In (0, d) (onMessage_calls e).
Proof.
  split; [reflexivity|].
  destruct (run (disconnect (after until_open)).1
              [EvClose 0 normal; TimerFires 0; EvOpen 1; EvMessage 1 "{a}"])
    as [[w' e]|] eqn:Hrun; [|vm_compute in Hrun; discriminate Hrun].
  exists w', e. split; [reflexivity|].
  exact (no_message_after_disconnect parse never_throws (after until_open) 0
           {| url := "ws://localhost:8000/ws/job/J1"; readyState := OPEN;
              handlers := view; executor := 0 |} _ w' e eq_refl eq_refl Hrun).
Defined.

Lemma reachable_consistent_witness :
  Api.reachable parse never_throws (after until_last_failure)
  /\ consistent (after until_last_failure)
  /\ ws (this (after until_last_failure)) = Some 5
  /\ length (sockets (after until_last_failure)) = 6.
Proof.
  assert (Hr : Api.reachable parse never_throws (after until_last_failure)).
  { apply after_reachable. vm_compute. eexists. reflexivity. }
  destruct (reachable_consistent parse never_throws _ Hr) as (Hc & Hws & _).
  split; [exact Hr|]. split; [exact Hc|]. split; [reflexivity|].
  destruct (Hws 5 eq_refl) as [Hlen _]. symmetry. exact Hlen.
Defined.

Lemma connects_to_own_job_only_witness :
  exists (w' : World) e,
    run start until_last_failure = Some (w', e)
    /\ length (urls e) = 6
    /\ Forall (fun u => u = job_url "J1") (urls e).
Proof.
  destruct (run start until_last_failure)
    as [[w' e]|] eqn:Hrun; [|vm_compute in Hrun; discriminate Hrun].
  exists w', e. split; [reflexivity|].
  destruct (connects_to_own_job_only parse never_throws _ start w' e Hrun) as (Hu & _).
  split; [|exact Hu].
  vm_compute in Hrun. injection Hrun as <- <-. reflexivity.
Defined.

Lemma uncaught_only_from_onError_witness :
  exists (w' : World) e,
    step (after_angry) (EvError 0) = Some (w', e)
    /\ In Uncaught e
    /\ promises w' = [{| pstate := Pending; caught := false |}].
Proof.
  destruct (step (after_angry) (EvError 0))
    as [[w' e]|] eqn:Hs; [|vm_compute in Hs; discriminate Hs].
  assert (Hin : In Uncaught e).
  { vm_compute in Hs. injection Hs as <- <-. right. right. by left. }
  exists w', e. split; [reflexivity|]. split; [exact Hin|].
  destruct (uncaught_only_from_onError parse never_throws _ _ _ _ Hs Hin)
    as (s & k & f & _ & _ & _ & _ & Hp & _).
  rewrite Hp. reflexivity.
Defined.

Lemma handlers_come_from_caller_witness :
  connect_args until_last_failure = [view]
  /\ exists (w' : World) e,
       run (fresh "J1" (0, 0)) until_last_failure = Some (w', e)
       /\ length (sockets w') = 6
       /\ Forall (fun k => handlers k = view) (sockets w').
Proof.
  split; [reflexivity|].
  destruct (run (fresh "J1" (0, 0)) until_last_failure)
    as [[w' e]|] eqn:Hrun; [|vm_compute in Hrun; discriminate Hrun].
  exists w', e. split; [reflexivity|].
  destruct (handlers_come_from_caller parse never_throws "J1" (0, 0) _ w' e Hrun)
    as (_ & _ & Hone).
  split; [|exact (proj1 (Hone view eq_refl))].
  vm_compute in Hrun. injection Hrun as <- <-. reflexivity.
Defined.

Lemma constructor_throws_never_connects_witness :
  always_throws (job_url "J1") = true
  /\ exists (w' : World) e,
       Api.run parse always_throws start
         [CallConnect view; CallDisconnect; CallConnect view] = Some (w', e)
       /\ sockets w' = []
       /\ promises w' = [{| pstate := Rejected; caught := false |};
                         {| pstate := Rejected; caught := false |}].
Proof.
  split; [reflexivity|].
  destruct (Api.run parse always_throws start
              [CallConnect view; CallDisconnect; CallConnect view])
    as [[w' e]|] eqn:Hrun; [|vm_compute in Hrun; discriminate Hrun].
  exists w', e. split; [reflexivity|].
  destruct (constructor_throws_never_connects parse always_throws "J1" (0, 0) _ w' e
              eq_refl Hrun) as (Hso & _ & _ & _ & _ & _ & _ & _ & Hp).
  split; [exact Hso | exact Hp].
Defined.

Lemma reconnects_are_unbounded_witness :
  can_reconnect (after until_open)
  /\ exists ins (w' : World) e,
       run (after until_open) ins = Some (w', e)
       /\ no_connect_call ins = true
       /\ length (scheduled e) = 12
       /\ connection_attempts e = 12.
Proof.
  assert (Hcan : can_reconnect (after until_open)).
  { split; [change (0 < 5); lia|].
    exists 0, {| url := "ws://localhost:8000/ws/job/J1"; readyState := OPEN;
                 handlers := view; executor := 0 |}.
    split; [reflexivity | discriminate]. }
  split; [exact Hcan|].
  exact (reconnects_are_unbounded parse never_throws (after until_open) 12 eq_refl Hcan).
Defined.



Lemma connect_resolves_on_open_witness :
  exists (w' : World) e,
    run (after until_backoff) [CallConnect faulty; EvOpen 1] = Some (w', e)
    /\ isConnected w' = true
    /\ reconnectAttempts (this w') = 0
    /\ promises w' !! 1 = Some {| pstate := Fulfilled; caught := false |}.
Proof.
  destruct (connect_resolves_on_open parse never_throws (after until_backoff) faulty eq_refl)
    as (w' & e & Hrun & _ & Hp & _ & _ & Hc & Hcnt & _).
  exists w', e. split; [exact Hrun|]. split; [exact Hc|]. split; [exact Hcnt|].
  rewrite Hp. reflexivity.
Defined.

End ApiExtra.

(* ===================================================================== *)
(** ** Properties of the HTTP side *)
(* ===================================================================== *)

Module HttpFacts.
Import Http.

(** X13. The request interceptor only ever writes the [Authorization]
    header: the URL and every other header are those of the caller; when
    a non-empty token is stored the header is the bearer token, replacing
    whatever the caller had put there; with no token, or the empty string
    as token, the configuration is returned exactly as it came. *)
Theorem request_interceptor_frame (b : Browser) (config : RequestConfig) k :
  k <> "Authorization" ->
  headers (on_request b config) !! k = headers config !! k
  /\ request_url (on_request b config) = request_url config
  /\ (forall t, localStorage b !! "auth_token" = Some t -> t <> "" ->
        headers (on_request b config) !! "Authorization" = Some ("Bearer " +:+ t))
  /\ (localStorage b !! "auth_token" = None \/ localStorage b !! "auth_token" = Some "" ->
        on_request b config = config).
Proof.
  intros Hk. unfold on_request.
  destruct (localStorage b !! "auth_token") as [t|] eqn:Ht.
  - destruct (decide (t = "")) as [->|Hne]; cbn.
    + repeat split; try done. intros t [= <-] Hne. done.
    + split; [by apply lookup_insert_ne|]. split; [reflexivity|]. split.
      * intros t' [= <-] _. apply lookup_insert_eq.
      * intros [H|H]; [discriminate H | injection H as ->; done].
  - repeat split; try done.
Qed.

(** X14. A 401 logs the user out.  After the response interceptor has
    seen a 401 the token is gone from [localStorage] while every other
    key is kept, the location is the login page, and the next request
    goes out exactly as the caller built it; seeing the same error again
    changes nothing more.  The error is handed on unchanged. *)
Theorem unauthorized_response_logs_out (b : Browser) (error : AxiosError) r config :
  response error = Some r ->
  status r = 401%Z ->
  localStorage (on_response_error b error).1 !! "auth_token" = None
  /\ (forall k, k <> "auth_token" ->
        localStorage (on_response_error b error).1 !! k = localStorage b !! k)
  /\ location_href (on_response_error b error).1 = "/login"
  /\ on_request (on_response_error b error).1 config = config
  /\ (on_response_error b error).2 = error
  /\ on_response_error (on_response_error b error).1 error = on_response_error b error.
Proof.
  intros Hr Hs. unfold on_response_error. rewrite Hr.
  destruct (decide (status r = 401%Z)) as [_|Hne]; [|done]. cbn.
  split; [apply lookup_delete_eq|].
  split; [intros k Hk; by apply lookup_delete_ne|].
  split; [reflexivity|].
  split; [unfold on_request; cbn; by rewrite lookup_delete_eq|].
  split; [reflexivity|].
  by rewrite delete_delete_eq.
Qed.

(** Any other failure leaves the session alone: for an error
    without a response (the network failed) or with a status other than
    401 the browser state is untouched, so the token is still sent with
    the next request. *)
Lemma other_errors_keep_session (b : Browser) (error : AxiosError) config :
  match response error with Some r => status r <> 401%Z | None => True end ->
  on_response_error b error = (b, error)
  /\ on_request (on_response_error b error).1 config = on_request b config.
Proof.
  intros H. unfold on_response_error.
  destruct (response error) as [r|]; [|done].
  by destruct (decide (status r = 401%Z)).
Qed.

(** *** The endpoint table *)

Lemma append_cons c (a b : string) : String c a +:+ b = String c (a +:+ b).
Proof. reflexivity. Qed.

Lemma append_nil (b : string) : "" +:+ b = b.
Proof. reflexivity. Qed.

Lemma length_append (a b : string) :
  String.length (a +:+ b) = String.length a + String.length b.
Proof.
  induction a as [|c a IH]; [reflexivity|].
  rewrite append_cons. cbn. by rewrite IH.
Qed.

(** Two strings that end in suffixes of the same length agree part by
    part. *)
Lemma append_same_length (a b s1 s2 : string) :
  String.length s1 = String.length s2 ->
  a +:+ s1 = b +:+ s2 ->
  a = b /\ s1 = s2.
Proof.
  intros Hlen. revert b. induction a as [|c a IH]; intros [|c' b] H;
    rewrite ?append_cons, ?append_nil in H.
  - done.
  - exfalso. apply (f_equal String.length) in H. cbn in H.
    rewrite length_append in H. lia.
  - exfalso. apply (f_equal String.length) in H. cbn in H.
    rewrite length_append in H. lia.
  - injection H as -> H. destruct (IH _ H) as [-> ->]. done.
Qed.

Lemma slash_free_append_slash (a r : string) :
  slash_free (a +:+ String "/" r) = false.
Proof.
  induction a as [|c a IH]; [reflexivity|].
  rewrite append_cons. cbn. by destruct (decide (c = "/"%char)).
Qed.

(** A slash-free id is read back from what follows it up to the slash. *)
Lemma slash_split (a a' r r' : string) :
  slash_free a = true ->
  slash_free a' = true ->
  a +:+ String "/" r = a' +:+ String "/" r' ->
  a = a' /\ r = r'.
Proof.
  revert a'. induction a as [|c a IH]; intros [|c' a'] Ha Ha' H;
    rewrite ?append_cons, ?append_nil in H; cbn in Ha, Ha'.
  - by injection H as ->.
  - injection H as <- _. by destruct (decide ("/"%char = "/"%char)).
  - injection H as -> _. by destruct (decide ("/"%char = "/"%char)).
  - injection H as -> H.
    destruct (decide (c' = "/"%char)); [discriminate|].
    destruct (IH _ Ha Ha' H) as [-> ->]. done.
Qed.

(** X15. The routes are unambiguous as long as project ids hold no
    slash: each template is injective in its arguments, the status and
    report routes never coincide, a model export is never a pipeline
    export, and a project's own URL is never an upload URL.  Without that
    proviso they do collide: the project URL of [p/upload] is the upload
    URL of [p]. *)
Theorem routes_unambiguous (p p' : string) :
  slash_free p = true ->
  slash_free p' = true ->
  (forall d d', endpoints.eda.status p d = endpoints.eda.status p' d' -> p = p' /\ d = d')
  /\ (forall d d', endpoints.eda.report p d = endpoints.eda.report p' d' -> p = p' /\ d = d')
  /\ (forall m m', endpoints.export.model p m = endpoints.export.model p' m' -> p = p' /\ m = m')
  /\ (endpoints.upload p = endpoints.upload p' -> p = p')
  /\ (endpoints.automl.status p = endpoints.automl.status p' -> p = p')
  /\ (endpoints.automl.leaderboard p = endpoints.automl.leaderboard p' -> p = p')
  /\ (endpoints.export.pipeline p = endpoints.export.pipeline p' -> p = p')
  /\ (forall d d', endpoints.eda.status p d <> endpoints.eda.report p' d')
  /\ (forall m, endpoints.export.model p m <> endpoints.export.pipeline p')
  /\ project_url p <> endpoints.upload p'
  /\ project_url (p +:+ "/upload") = endpoints.upload p.
Proof.
  intros Hp Hp'.
  assert (Hone : forall suf a a' : string, a +:+ suf = a' +:+ suf -> a = a').
  { intros suf a a' H. by destruct (append_same_length _ _ _ _ eq_refl H). }
  assert (Htwo : forall (suf d d' : string),
    p +:+ String "/" (d +:+ suf) = p' +:+ String "/" (d' +:+ suf) -> p = p' /\ d = d').
  { intros suf d d' H. destruct (slash_split _ _ _ _ Hp Hp' H) as [-> H'].
    split; [reflexivity|]. by apply (Hone suf). }
  unfold endpoints.eda.status, endpoints.eda.report, endpoints.export.model,
    endpoints.upload, endpoints.automl.status, endpoints.automl.leaderboard,
    endpoints.export.pipeline, project_url, endpoints.projects.
  rewrite ?append_cons, ?append_nil.
  split; [intros d d' H; rewrite ?append_cons, ?append_nil in H; simplify_eq; by apply (Htwo "/status")|].
  split; [intros d d' H; rewrite ?append_cons, ?append_nil in H; simplify_eq; by apply (Htwo "/report")|].
  split.
  { intros m m' H. rewrite ?append_cons, ?append_nil in H. simplify_eq.
    destruct (slash_split _ _ _ _ Hp Hp' H) as [-> H']. by simplify_eq. }
  split; [intros H; rewrite ?append_cons, ?append_nil in H; simplify_eq; by apply (Hone "/upload")|].
  split; [intros H; rewrite ?append_cons, ?append_nil in H; simplify_eq; by apply (Hone "/status")|].
  split; [intros H; rewrite ?append_cons, ?append_nil in H; simplify_eq; by apply (Hone "/leaderboard")|].
  split; [intros H; rewrite ?append_cons, ?append_nil in H; simplify_eq; by apply (Hone "/pipeline")|].
  split.
  { intros d d' H. rewrite ?append_cons, ?append_nil in H. simplify_eq.
    destruct (slash_split _ _ _ _ Hp Hp' H) as [_ H'].
    destruct (append_same_length d d' "/status" "/report" eq_refl H') as [_ H''].
    discriminate H''. }
  split.
  { intros m H. rewrite ?append_cons, ?append_nil in H. simplify_eq.
    destruct (slash_split _ _ _ _ Hp Hp' H) as [_ H']. discriminate H'. }
  split.
  { intros H. rewrite ?append_cons, ?append_nil in H.
    injection H as ->.
    change (p' +:+ "/upload") with (p' +:+ String "/" "upload") in Hp.
    rewrite slash_free_append_slash in Hp. discriminate Hp. }
  reflexivity.
Qed.

(** *** The scenarios *)

Lemma request_interceptor_frame_witness :
  "Accept" <> "Authorization"
  /\ headers (on_request signed_in some_request) !! "Accept" = Some "application/json"
  /\ headers (on_request signed_in some_request) !! "Authorization" = Some "Bearer t0k3n".
Proof.
  assert (Hne : "Accept" <> "Authorization") by discriminate.
  destruct (request_interceptor_frame signed_in some_request "Accept" Hne)
    as (Hk & _ & Hauth & _).
  split; [exact Hne|]. split; [rewrite Hk; reflexivity|].
  apply (Hauth "t0k3n"); [reflexivity | discriminate].
Defined.

Lemma unauthorized_response_logs_out_witness :
  localStorage signed_in !! "auth_token" = Some "t0k3n"
  /\ localStorage (on_response_error signed_in unauthorized).1 !! "auth_token" = None
  /\ localStorage (on_response_error signed_in unauthorized).1 !! "theme" = Some "light"
  /\ on_request (on_response_error signed_in unauthorized).1 some_request = some_request.
Proof.
  destruct (unauthorized_response_logs_out signed_in unauthorized {| status := 401 |}
              some_request eq_refl eq_refl) as (Hgone & Hkeep & _ & Hreq & _).
  split; [reflexivity|]. split; [exact Hgone|]. split; [|exact Hreq].
  rewrite Hkeep by discriminate. reflexivity.
Defined.

Lemma routes_unambiguous_witness :
  slash_free "p1" = true
  /\ slash_free "p2" = true
  /\ endpoints.eda.status "p1" "d1" <> endpoints.eda.report "p2" "d1"
  /\ project_url "p1" <> endpoints.upload "p2".
Proof.
  destruct (routes_unambiguous "p1" "p2" eq_refl eq_refl)
    as (_ & _ & _ & _ & _ & _ & _ & Hsr & _ & Hup & _).
  split; [reflexivity|]. split; [reflexivity|]. split; [apply Hsr | exact Hup].
Defined.

End HttpFacts.

(* ===================================================================== *)
(** ** Properties of the training page *)
(* ===================================================================== *)

Module PagesFacts.
Import Api Pages.

Section Facts.

Context {Num Info : Type}.
Variable num_zero : Num.
Variable num_is_zero : Num -> bool.
Variable num_hundred : Num.
Variable ToString : JsValue Num -> string.
Variable JSON_parse : string -> option (JsValue Num).
Variable WebSocket_throws : string -> bool.

Local Abbreviation Page := (TrainingPage Num Info).
Local Abbreviation World := (World (JsValue Num) Page).
Local Abbreviation on_message := (training_onMessage (Info := Info) num_zero num_is_zero ToString).
Local Abbreviation callbacks := (training_callbacks (Info := Info) num_zero num_is_zero ToString).
Local Abbreviation step := (step (Caller := Page) JSON_parse WebSocket_throws).
Local Abbreviation run := (run (Caller := Page) JSON_parse WebSocket_throws).
Local Abbreviation lost := "Lost connection to training updates".

(** [loadLeaderboard] writes nothing but the list of requests. *)
Lemma loadLeaderboard_fields (p : Page) :
  projectId (loadLeaderboard p) = projectId p
  /\ trainingProgress (loadLeaderboard p) = trainingProgress p
  /\ isTraining (loadLeaderboard p) = isTraining p
  /\ error_toasts (loadLeaderboard p) = error_toasts p
  /\ success_toasts (loadLeaderboard p) = success_toasts p
  /\ models (loadLeaderboard p) = models p.
Proof.
  unfold loadLeaderboard. destruct (projectId p) as [project|] eqn:Hp; [|done].
  by destruct (decide (project = "")).
Qed.


(** *** The leaderboard *)

Local Abbreviation trained := (trained (Num := Num) num_zero num_hundred num_is_zero).
Local Abbreviation trained_model := (trained_model (Num := Num) num_zero num_hundred num_is_zero).
Local Abbreviation settled := (leaderboard_settled (Num := Num) num_zero num_hundred num_is_zero).

(** The conversion goes through exactly when no entry is [null]. *)
Lemma mapM_trained_model (items : list (JsValue Num)) :
  (Forall (fun item => item <> JNull) items ->
     mapM trained_model items = Some (map trained items))
  /\ (In JNull items -> mapM trained_model items = None)
  /\ (Forall (fun item => item <> JNull) items \/ In JNull items).
Proof.
  induction items as [|item items (IHsome & IHnone & IHall)].
  - repeat split; [intros []|left; constructor].
  - split; [|split].
    + intros H. apply Forall_cons_1 in H as [Hitem Hrest]. cbn.
      rewrite (IHsome Hrest). by destruct item.
    + intros [->|Hin]; [reflexivity|]. cbn. rewrite (IHnone Hin).
      by destruct (trained_model item).
    + destruct IHall as [Hall|Hin]; [|right; by right].
      destruct item; try (left; by constructor). right. by left.
Qed.

(** X21. What the page does when the leaderboard request comes back.
    Whatever the reply, the training flag is off afterwards and the
    progress shown, the project id and the requests sent are as before.
    A response whose data is an array without a [null] entry replaces the
    models, one model per entry in order, each completed with progress
    100, and raises the success toast and no error toast.  A rejected
    request, data that is not an array, and an array with a [null] entry
    leave the models as they are and raise the one error toast.  There is
    no other case. *)
Theorem leaderboard_reply_effects (reply : Reply Num) (q : TrainingPage Num (Fields Num)) :
  isTraining (settled reply q) = false
  /\ trainingProgress (settled reply q) = trainingProgress q
  /\ projectId (settled reply q) = projectId q
  /\ requests (settled reply q) = requests q
  /\ (forall items,
        reply = Fulfils (JArr items) ->
        Forall (fun item => item <> JNull) items ->
        models (settled reply q) = map trained items
        /\ length (models (settled reply q)) = length items
        /\ Forall (fun m => model_status m = Mcompleted
                            /\ progress (info m) = num_hundred)
             (models (settled reply q))
        /\ success_toasts (settled reply q)
           = success_toasts q ++ ["AutoML training completed successfully!"]
        /\ error_toasts (settled reply q) = error_toasts q)
  /\ (reply = Rejects
      \/ (exists data, reply = Fulfils data /\ forall items, data <> JArr items)
      \/ (exists items, reply = Fulfils (JArr items) /\ In JNull items) ->
        models (settled reply q) = models q
        /\ error_toasts (settled reply q)
           = error_toasts q ++ ["Failed to load training results"]
        /\ success_toasts (settled reply q) = success_toasts q)
  /\ ((exists items, reply = Fulfils (JArr items)
                     /\ Forall (fun item => item <> JNull) items)
      \/ reply = Rejects
      \/ (exists data, reply = Fulfils data /\ forall items, data <> JArr items)
      \/ (exists items, reply = Fulfils (JArr items) /\ In JNull items)).
Proof.
  assert (Hflag : isTraining (settled reply q) = false
                  /\ trainingProgress (settled reply q) = trainingProgress q
                  /\ projectId (settled reply q) = projectId q
                  /\ requests (settled reply q) = requests q).
  { unfold leaderboard_settled, leaderboard_failed.
    destruct reply as [|data]; [done|]. by destruct (trainedModels _ _ _ data). }
  destruct Hflag as (H1 & H2 & H3 & H4).
  split; [exact H1|]. split; [exact H2|]. split; [exact H3|]. split; [exact H4|].
  split; [|split].
  - intros items -> Hall. unfold leaderboard_settled, trainedModels.
    rewrite (proj1 (mapM_trained_model items) Hall). cbn.
    split; [reflexivity|]. split; [apply length_map|]. split; [|done].
    apply Forall_map, Forall_forall. by intros item _.
  - intros [->|[(data & -> & Hdata)|(items & -> & Hin)]];
      unfold leaderboard_settled, trainedModels.
    + done.
    + destruct data; try done. by destruct (Hdata items).
    + by rewrite (proj1 (proj2 (mapM_trained_model items)) Hin).
  - destruct reply as [|data]; [right; by left|].
    destruct data as [|b|n|s|items|fields];
      try (right; right; left; eexists; split; [reflexivity | done]).
    destruct (proj2 (proj2 (mapM_trained_model items))) as [Hall|Hin].
    + left. by exists items.
    + right. right. right. by exists items.
Qed.

(** X17. A message that is the JSON text [null] parses, yet is reported
    as a parse failure: the page's handler throws on it inside the
    client's [try], the [catch] logs the parse-failure line, and the page
    and the instance are left exactly as they were; the socket stays open
    for the messages that follow. *)
Theorem null_message_reported_as_parse_failure (w : World) s k payload :
  sockets w !! s = Some k ->
  readyState k = OPEN ->
  handlers k = callbacks ->
  JSON_parse payload = Some JNull ->
  exists w',
    step w (EvMessage s payload)
    = Some (w', [CallOnMessage s JNull;
                 ConsoleError "Failed to parse WebSocket message:"])
    /\ caller w' = caller w /\ this w' = this w /\ sockets w' = sockets w
    /\ timers w' = timers w /\ promises w' = promises w.
Proof.
  intros Hk Hst Hh Hp. cbn. rewrite Hk, Hst. unfold onmessage.
  rewrite Hp, Hh. cbn. eexists. split; [reflexivity|]. by repeat split.
Qed.

(** *** Toasts *)

Lemma on_message_lost (data : JsValue Num) (p : Page) :
  raised lost (on_message data p).1 = raised lost p
  /\ (isTraining p = false -> isTraining (on_message data p).1 = false).
Proof.
  unfold training_onMessage.
  destruct (get data "progress"); cbn [fst]; try done;
    (destruct (status_is data "completed");
     [match goal with |- context [loadLeaderboard ?q] =>
        destruct (loadLeaderboard_fields q) as (_ & _ & Hi & He & _) end;
      cbn [fst]; unfold raised; by rewrite He, Hi
     |destruct (status_is data "failed"); cbn; try done]).
  all: split; [|done]; unfold raised; cbn;
    rewrite List.filter_app, length_app; cbn;
    match goal with |- context [decide (?a = ?b)] =>
      destruct (decide (a = b)) as [Heq|_]; [discriminate Heq | cbn; lia] end.
Qed.

(** One step of the client, seen from a page whose callbacks are the
    only ones in use. *)
Lemma step_page (w : World) i w' e :
  step w i = Some (w', e) ->
  Forall (fun k => handlers k = callbacks) (sockets w) ->
  raised lost (caller w') = raised lost (caller w) + error_events [i]
  /\ (isTraining (caller w) = false -> isTraining (caller w') = false)
  /\ (error_events [i] = 1 -> isTraining (caller w') = false).
Proof.
  intros Hs Hall.
  assert (Hcb : forall s k, sockets w !! s = Some k -> handlers k = callbacks)
    by (intros s k Hk; exact (Forall_lookup_1 _ _ _ _ Hall Hk)).
  destruct i; cbn in Hs;
    unfold Api.connect, disconnect, onopen, onclose, timeout_callback,
      Api.connect, attemptReconnect in Hs.
  1-3, 6-7: repeat case_match; simplify_eq; cbn;
    rewrite ?ApiFacts.settle_this, ?ApiExtra.settle_caller; cbn;
    repeat split; try done; try lia; intros; lia.
  - (* message *)
    destruct (sockets w !! s) as [k|] eqn:Hk; [|discriminate].
    destruct (readyState k); try discriminate. injection Hs as Hs.
    unfold onmessage in Hs. rewrite (Hcb _ _ Hk) in Hs.
    destruct (JSON_parse payload) as [d|]; [|simplify_eq; cbn; repeat split; try done; lia].
    cbn in Hs. destruct (on_message_lost d (caller w)) as [Hr Ht].
    destruct (on_message d (caller w)) as [c r]; cbn in Hr, Ht.
    destruct r; simplify_eq; cbn; rewrite Hr; repeat split; try done; try lia.
  - (* error *)
    destruct (sockets w !! s) as [k|] eqn:Hk; [|discriminate].
    unfold onerror in Hs. rewrite (Hcb _ _ Hk) in Hs. cbn in Hs.
    destruct (readyState k); simplify_eq; rewrite ApiExtra.settle_caller;
      unfold raised; cbn; rewrite List.filter_app, length_app; cbn;
      by destruct (decide (lost = lost)).
Qed.

Lemma run_page ins : forall (w : World) w' e,
  run w ins = Some (w', e) ->
  Forall (fun cb => cb = callbacks) (connect_args ins) ->
  Forall (fun k => handlers k = callbacks) (sockets w) ->
  Forall (fun tm => captured tm = callbacks) (timers w) ->
  raised lost (caller w') = raised lost (caller w) + error_events ins
  /\ (isTraining (caller w) = false -> isTraining (caller w') = false)
  /\ (0 < error_events ins -> isTraining (caller w') = false).
Proof.
  induction ins as [|i ins IH]; intros w w' e H Hargs Hso Hti; cbn [Api.run] in H.
  - injection H as <- _. cbn. repeat split; [lia | done | lia].
  - destruct (Api.step _ _ w i) as [[wa ea]|] eqn:Hs; [|discriminate].
    destruct (Api.run _ _ wa ins) as [[wb eb]|] eqn:Hb; [|discriminate].
    injection H as <- _.
    change (i :: ins) with ([i] ++ ins) in *.
    rewrite ApiExtra.connect_args_app in Hargs. apply Forall_app in Hargs as [Hi Hrest].
    destruct (ApiExtra.step_provenance _ _ [callbacks] _ _ _ _ Hs) as [Hso1 Hti1].
    { eapply Forall_impl; [exact Hso|]. cbn. intros k ->. by left. }
    { eapply Forall_impl; [exact Hti|]. cbn. intros k ->. by left. }
    assert (Hin : forall cb : Callbacks (JsValue Num) Page,
      In cb ([callbacks] ++ connect_args [i]) -> cb = callbacks).
    { intros cb [<-|Hin]; [reflexivity|]. exact (proj1 (Forall_forall _ _) Hi _ (proj2 (list_elem_of_In _ _) Hin)). }
    destruct (step_page _ _ _ _ Hs Hso) as (Hr1 & Hm1 & He1).
    destruct (IH _ _ _ Hb Hrest) as (Hr2 & Hm2 & He2).
    { eapply Forall_impl; [exact Hso1|]. cbn. intros k. apply Hin. }
    { eapply Forall_impl; [exact Hti1|]. cbn. intros k. apply Hin. }
    unfold error_events in *. rewrite List.filter_app, length_app.
    repeat split; [lia | auto |].
    intros Hpos. destruct (length (List.filter _ [i])) as [|[|n]] eqn:Hn.
    + apply He2. lia.
    + auto.
    + destruct i; cbn in Hn; lia.
Qed.

(** X18. The page announces a lost connection on every socket error
    event, not once when the client gives up: after any run from a new
    instance in which the page's callbacks are the only ones passed to
    [connect], the toast has been raised once per error event, and from
    the first error event on the page shows training as stopped, whatever
    the client reconnects to afterwards. *)
Theorem lost_connection_toast_per_error job (p : Page) ins (w' : World) e :
  run (fresh job p) ins = Some (w', e) ->
  Forall (fun cb => cb = callbacks) (connect_args ins) ->
  raised lost (caller w') = raised lost p + error_events ins
  /\ (0 < error_events ins -> isTraining (caller w') = false)
  /\ (isTraining p = false -> isTraining (caller w') = false).
Proof.
  intros Hrun Hargs.
  destruct (run_page ins _ _ _ Hrun Hargs) as (Hr & Hm & He); [constructor..|].
  by repeat split.
Qed.

(** *** Stopping *)

Lemma stop_model_settled (m : Model Info) :
  (model_status (stop_model m) = Mcompleted \/ model_status (stop_model m) = Mfailed)
  /\ info (stop_model m) = info m
  /\ (model_status m = Mcompleted \/ model_status m = Mfailed -> stop_model m = m)
  /\ stop_model (stop_model m) = stop_model m.
Proof.
  unfold stop_model. destruct m as [[] i]; cbn; repeat split; auto;
    intros [H|H]; discriminate H.
Qed.

(** X19. [stopTraining] leaves no model queued or training: every model
    keeps its place and its data, completed and failed models are kept
    as they are, the others are marked failed, the training flag is off
    and one toast is raised; the progress shown is not reset.  Stopping
    twice changes the models no further. *)
Theorem stopTraining_settles_models (p : Page) :
  isTraining (stopTraining p) = false
  /\ trainingProgress (stopTraining p) = trainingProgress p
  /\ error_toasts (stopTraining p) = error_toasts p ++ ["Training stopped"]
  /\ length (models (stopTraining p)) = length (models p)
  /\ Forall (fun m => model_status m = Mcompleted \/ model_status m = Mfailed)
       (models (stopTraining p))
  /\ (forall i, models (stopTraining p) !! i = stop_model <$> models p !! i)
  /\ (forall i m, models p !! i = Some m ->
        exists m', models (stopTraining p) !! i = Some m'
                   /\ info m' = info m
                   /\ (model_status m = Mcompleted \/ model_status m = Mfailed -> m' = m)
                   /\ (model_status m = Mqueued \/ model_status m = Mtraining ->
                       model_status m' = Mfailed))
  /\ models (stopTraining (stopTraining p)) = models (stopTraining p).
Proof.
  unfold stopTraining. cbn.
  split; [reflexivity|]. split; [reflexivity|]. split; [reflexivity|].
  split; [apply length_map|].
  split; [apply Forall_map, Forall_forall; intros m _; apply stop_model_settled|].
  split; [intros i; apply list_lookup_fmap|].
  split.
  - intros i m Hm. exists (stop_model m). rewrite list_lookup_fmap, Hm.
    split; [reflexivity|]. split; [apply stop_model_settled|].
    split; [apply stop_model_settled|].
    unfold stop_model. intros [H|H]; by rewrite H.
  - rewrite <- list_fmap_compose. apply list_fmap_ext.
    intros i m _. apply stop_model_settled.
Qed.

End Facts.

(** *** The scenarios *)

Import Pages.Demo.


Lemma leaderboard_reply_effects_witness :
  map model_status (models (leaderboard_settled 0%Z 100%Z is_zero (Fulfils two_models) training))
    = [Mcompleted; Mcompleted]
  /\ map (fun m => accuracy (info m))
       (models (leaderboard_settled 0%Z 100%Z is_zero (Fulfils two_models) training))
     = [JNum 93%Z; JNum 0%Z]
  /\ map (fun m => name (info m))
       (models (leaderboard_settled 0%Z 100%Z is_zero (Fulfils two_models) training))
     = [JStr "lgbm"; JStr "Unknown Model"]
  /\ isTraining (leaderboard_settled 0%Z 100%Z is_zero (Fulfils two_models) training) = false
  /\ success_toasts (leaderboard_settled 0%Z 100%Z is_zero (Fulfils two_models) training)
     = ["AutoML training completed successfully!"]
  /\ models (leaderboard_settled 0%Z 100%Z is_zero (Fulfils with_null_entry) training) = []
  /\ error_toasts (leaderboard_settled 0%Z 100%Z is_zero (Fulfils with_null_entry) training)
     = ["Failed to load training results"]
  /\ isTraining (leaderboard_settled 0%Z 100%Z is_zero Rejects training) = false.
Proof.
  destruct (leaderboard_reply_effects 0%Z is_zero 100%Z (Fulfils two_models) training)
    as (Hflag & _ & _ & _ & Hsome & _).
  destruct (Hsome _ eq_refl ltac:(repeat constructor; discriminate))
    as (Hmodels & _ & _ & Htoast & _).
  destruct (leaderboard_reply_effects 0%Z is_zero 100%Z (Fulfils with_null_entry) training)
    as (_ & _ & _ & _ & _ & Hnone & _).
  destruct (Hnone (or_intror (or_intror
              (ex_intro _ [JObj [("model_id", JStr "m1")]; JNull]
                 (conj eq_refl (or_intror (or_introl eq_refl)))))))
    as (Hkept & Herror & _).
  destruct (leaderboard_reply_effects 0%Z is_zero 100%Z Rejects training)
    as (Hflag' & _).
  split; [by rewrite Hmodels|]. split; [by rewrite Hmodels|].
  split; [by rewrite Hmodels|]. split; [exact Hflag|]. split; [exact Htoast|].
  split; [exact Hkept|]. split; [exact Herror | exact Hflag'].
Defined.

Lemma null_message_reported_as_parse_failure_witness :
  parse "null" = Some JNull
  /\ exists w',
       Api.step parse never_throws connected (EvMessage 0 "null")
       = Some (w', [CallOnMessage 0 JNull;
                    ConsoleError "Failed to parse WebSocket message:"])
       /\ caller w' = page.
Proof.
  split; [reflexivity|].
  destruct (null_message_reported_as_parse_failure 0%Z is_zero object_text
              parse never_throws connected 0
              {| url := "ws://localhost:8000/ws/job/J1"; readyState := OPEN;
                 handlers := callbacks; executor := 0 |} "null")
    as (w' & Hs & Hc & _); try reflexivity.
  exists w'. split; [exact Hs|]. rewrite Hc. reflexivity.
Defined.

Lemma lost_connection_toast_per_error_witness :
  error_events three_failures = 3
  /\ exists w' e,
       Api.run parse never_throws start three_failures = Some (w', e)
       /\ raised "Lost connection to training updates" (caller w') = 3
       /\ isTraining (caller w') = false.
Proof.
  split; [reflexivity|].
  destruct (Api.run parse never_throws start three_failures)
    as [[w' e]|] eqn:Hrun; [|vm_compute in Hrun; discriminate Hrun].
  exists w', e. split; [reflexivity|].
  destruct (lost_connection_toast_per_error 0%Z is_zero object_text parse never_throws
              "J1" page three_failures w' e Hrun)
    as (Hraised & Hstop & _).
  { repeat constructor. }
  split; [exact Hraised|]. apply Hstop. change (0 < 3). lia.
Defined.

Lemma stopTraining_settles_models_witness :
  map model_status (models page) = [Mcompleted; Mtraining; Mqueued]
  /\ map model_status (models (stopTraining page)) = [Mcompleted; Mfailed; Mfailed]
  /\ Forall (fun m => model_status m = Mcompleted \/ model_status m = Mfailed)
       (models (stopTraining page)).
Proof.
  destruct (stopTraining_settles_models (Num := Z) page) as (_ & _ & _ & _ & Hall & _).
  split; [reflexivity|]. split; [reflexivity | exact Hall].
Defined.

End PagesFacts.
